(** * The iptables table reconciler ([Table]) of felix

    A shallow embedding of [iptables/table.go] and [iptables/actions.go]:
    the reconciler keeps a desired set of chains and rule insertions, reads
    the dataplane back through [iptables-save], diffs per-rule hashes and
    writes the difference through [iptables-restore].

    Conventions of the embedding.
    - Go maps are [gmap]s, [set.Set] is a [gset]; a map lookup that misses
      and a [nil] slice are both [None], so [option (list string)] is a
      slice that may be [nil] ([reflect.DeepEqual] tells [nil] from empty).
    - [time.Time] and [time.Duration] are [Z] nanoseconds; [Duration]
      arithmetic is written with its 64-bit wrap-around, [Time.Sub] with
      its saturation.
    - The clock, the save and restore subprocesses and the feature probe
      are answers indexed by call number ([Env]); the calls made so far and
      the restore inputs are recorded in a [World].
    - [log.Panic] is the [Panicked] outcome; the [World] survives it.
    - Iteration over a Go map or over a [set.Set] has no fixed order; the
      embedding iterates in the order of [elements]/[map_to_list] and no
      statement below depends on that order.
    - Logging and Prometheus gauges are left out. *)

From stdpp Require Import gmap strings list fin_maps sets.
From Stdlib Require Import ZArith Ascii HexString DecimalString.

Open Scope Z_scope.

(** ** Text helpers and the regular expressions of the package *)

Module Text.

(** [\s] of Go's regexp syntax is [[\t\n\f\r ]]. *)
Definition isSpace (a : ascii) : bool :=
  let n := nat_of_ascii a in
  (n =? 9)%nat || (n =? 10)%nat || (n =? 12)%nat || (n =? 13)%nat || (n =? 32)%nat.

(** The class [[a-zA-Z0-9_-]] of the hash comment. *)
Definition isHashChar (a : ascii) : bool :=
  let n := nat_of_ascii a in
  ((97 <=? n) && (n <=? 122))%nat || ((65 <=? n) && (n <=? 90))%nat
  || ((48 <=? n) && (n <=? 57))%nat || (n =? 95)%nat || (n =? 45)%nat.

(** Longest prefix of [s] whose characters satisfy [p] (a greedy [p+]). *)
Fixpoint takeWhile (p : ascii -> bool) (s : string) : string :=
  match s with
  | EmptyString => EmptyString
  | String a s' => if p a then String a (takeWhile p s') else EmptyString
  end.

Fixpoint stripPrefix (p s : string) : option string :=
  match p with
  | EmptyString => Some s
  | String a p' =>
      match s with
      | String b s' => if Ascii.eqb a b then stripPrefix p' s' else None
      | EmptyString => None
      end
  end.

Definition hasPrefix (p s : string) : bool :=
  match stripPrefix p s with Some _ => true | None => false end.

(** Leftmost position at which [f] matches. *)
Fixpoint findFirst {A} (f : string -> option A) (s : string) : option A :=
  match f s with
  | Some r => Some r
  | None =>
      match s with
      | EmptyString => None
      | String _ s' => findFirst f s'
      end
  end.

Definition contains (sub s : string) : bool :=
  match findFirst (stripPrefix sub) s with Some _ => true | None => false end.

(** [strings.Join]. *)
Fixpoint join (sep : string) (l : list string) : string :=
  match l with
  | [] => EmptyString
  | [x] => x
  | x :: l' => x +:+ sep +:+ join sep l'
  end.

(** [fmt.Sprintf("%d", n)] for a non-negative [n]. *)
Definition decimal (n : N) : string := NilZero.string_of_uint (N.to_uint n).

(** [fmt.Sprintf("%#x", n)]. *)
Definition hex (n : N) : string := HexString.of_N n.

(** The double-quote character, as a string. *)
Definition quote : string := String (ascii_of_nat 34) EmptyString.

(** [strings.ToLower] on ASCII text. *)
Definition lowerChar (a : ascii) : ascii :=
  let n := nat_of_ascii a in
  if ((65 <=? n) && (n <=? 90))%nat then ascii_of_nat (n + 32) else a.

Fixpoint toLower (s : string) : string :=
  match s with
  | EmptyString => EmptyString
  | String a s' => String (lowerChar a) (toLower s')
  end.

End Text.

Module Regexp.
Import Text.

(** A non-empty maximal run of non-space characters, [(\S+)]. *)
Definition nonSpaceRun (s : string) : option string :=
  match takeWhile (fun a => negb (isSpace a)) s with
  | EmptyString => None
  | run => Some run
  end.

(** [chainCreateRegexp = ^:(\S+)]: the captured chain name. *)
Definition chainCreateRegexp (line : string) : option string :=
  match stripPrefix ":" line with
  | Some rest => nonSpaceRun rest
  | None => None
  end.

(** [appendRegexp = ^-A (\S+)]: the captured chain name. *)
Definition appendRegexp (line : string) : option string :=
  match stripPrefix "-A " line with
  | Some rest => nonSpaceRun rest
  | None => None
  end.

(** The tail [hashPrefix ([a-zA-Z0-9_-]+)] of the hash comment pattern. *)
Definition hashAfterQuote (hashPrefix s : string) : option string :=
  match stripPrefix hashPrefix s with
  | Some rest =>
      match takeWhile isHashChar rest with
      | EmptyString => None
      | h => Some h
      end
  | None => None
  end.

(** The hash comment pattern anchored at the start of [s]; the optional
    quote is tried first (it is greedy) and skipped on failure. *)
Definition hashCommentAt (hashPrefix s : string) : option string :=
  match stripPrefix "--comment " s with
  | Some rest =>
      let quoted :=
        match stripPrefix quote rest with
        | Some rest' => hashAfterQuote hashPrefix rest'
        | None => None
        end in
      match quoted with
      | Some h => Some h
      | None => hashAfterQuote hashPrefix rest
      end
  | None => None
  end.

(** [regexp.MustCompile(`--comment "?` + hashPrefix + `([a-zA-Z0-9_-]+)"?`)]
    with [FindSubmatch]: capture 1 of the leftmost match.  [hashPrefix] is
    read as literal text. *)
Definition hashCommentRegexp (hashPrefix : string) (line : string) : option string :=
  findFirst (hashCommentAt hashPrefix) line.

(** [strings.Join] of no prefixes is the empty pattern, which matches
    everything; it is the single empty alternative. *)
Definition alternatives (parts : list string) : list string :=
  match parts with
  | [] => [EmptyString]
  | _ => parts
  end.

(** [^(p1|p2|...)] with [MatchString]; the prefixes are literal text. *)
Definition ourChainsRegexp (prefixes : list string) (name : string) : bool :=
  existsb (fun p => hasPrefix p name) (alternatives prefixes).

(** One alternative of the old-insert pattern: either [(?:-j|--jump) p]
    for a historic prefix [p] or the extra cleanup pattern, both literal. *)
Inductive OldInsertPart :=
| JumpTo (historicPrefix : string)
| Extra (pattern : string).

Definition oldInsertPartMatches (line : string) (part : OldInsertPart) : bool :=
  match part with
  | JumpTo p => contains ("-j " +:+ p) line || contains ("--jump " +:+ p) line
  | Extra pat => contains pat line
  end.

Definition oldInsertRegexpParts (prefixes : list string) (extra : string)
  : list OldInsertPart :=
  map JumpTo prefixes ++ (if decide (extra = EmptyString) then [] else [Extra extra]).

(** [oldInsertRegexp.Find(line) != nil]; no part at all is the empty
    pattern, which matches every line. *)
Definition oldInsertRegexp (prefixes : list string) (extra : string)
  (line : string) : bool :=
  match oldInsertRegexpParts prefixes extra with
  | [] => true
  | parts => existsb (oldInsertPartMatches line) parts
  end.

End Regexp.

(** ** Actions ([actions.go]) *)

(** The capability flags the code reads from [*Features]. *)
Record Features := {
  SNATFullyRandom : bool;
  MASQFullyRandom : bool;
  RestoreSupportsLock : bool
}.

#[global] Instance Features_eq_dec : EqDecision Features.
Proof. solve_decision. Defined.

Inductive Action :=
| GotoAction (Target : string)
| JumpAction (Target : string)
| ReturnAction
| DropAction
| LogAction (Prefix : string)
| AcceptAction
| DNATAction (DestAddr : string) (DestPort : N)
| SNATAction (ToAddr : string)
| MasqAction (ToPorts : string)
| ClearMarkAction (Mark : N)
| SetMarkAction (Mark : N)
| SetMaskedMarkAction (Mark Mask : N)
| NoTrackAction.

#[global] Instance Action_eq_dec : EqDecision Action.
Proof. solve_decision. Defined.

Definition ToFragment (a : Action) (features : Features) : string :=
  match a with
  | GotoAction target => "--goto " +:+ target
  | JumpAction target => "--jump " +:+ target
  | ReturnAction => "--jump RETURN"
  | DropAction => "--jump DROP"
  | LogAction prefix =>
      "--jump LOG --log-prefix " +:+ Text.quote +:+ prefix +:+ ": " +:+ Text.quote
      +:+ " --log-level 5"
  | AcceptAction => "--jump ACCEPT"
  | DNATAction addr port =>
      if (port =? 0)%N then "--jump DNAT --to-destination " +:+ addr
      else "--jump DNAT --to-destination " +:+ addr +:+ ":" +:+ Text.decimal port
  | SNATAction addr =>
      let fullyRand := if SNATFullyRandom features then " --random-fully" else EmptyString in
      "--jump SNAT --to-source " +:+ addr +:+ fullyRand
  | MasqAction toPorts =>
      let fullyRand := if MASQFullyRandom features then " --random-fully" else EmptyString in
      if decide (toPorts = EmptyString) then "--jump MASQUERADE" +:+ fullyRand
      else "--jump MASQUERADE --to-ports " +:+ toPorts +:+ fullyRand
  | ClearMarkAction mark => "--jump MARK --set-mark 0/" +:+ Text.hex mark
  | SetMarkAction mark => "--jump MARK --set-mark " +:+ Text.hex mark +:+ "/" +:+ Text.hex mark
  | SetMaskedMarkAction mark mask =>
      "--jump MARK --set-mark " +:+ Text.hex mark +:+ "/" +:+ Text.hex mask
  | NoTrackAction => "--jump NOTRACK"
  end.

(** ** Rules and chains *)

Module Chains.

(** [Rule{Match: MatchCriteria{...}, Action: ...}]; the match criteria are
    a list of fragments. *)
Record Rule := {
  Match : list string;
  RuleAction : Action
}.

#[global] Instance Rule_eq_dec : EqDecision Rule.
Proof. solve_decision. Defined.

Record Chain := {
  Name : string;
  Rules : list Rule
}.

(** Modelled from the spec: [Rule.RenderAppend], [Rule.RenderInsert] and
    [Rule.RenderReplace] are not among the sources.  A rule renders to the
    operation and chain, then the comment fragment carrying the hash as the
    first match term, then the match criteria and the action fragment. *)
Definition renderInner (head : string) (r : Rule) (prefixFragment : string)
  (features : Features) : string :=
  Text.join " " [head; prefixFragment; Text.join " " (Match r);
                 ToFragment (RuleAction r) features].

Definition RenderAppend (r : Rule) (chainName prefixFragment : string)
  (features : Features) : string :=
  renderInner ("-A " +:+ chainName) r prefixFragment features.

Definition RenderInsert (r : Rule) (chainName prefixFragment : string)
  (features : Features) : string :=
  renderInner ("-I " +:+ chainName) r prefixFragment features.

Definition RenderReplace (r : Rule) (chainName : string) (ruleNum : nat)
  (prefixFragment : string) (features : Features) : string :=
  renderInner ("-R " +:+ chainName +:+ " " +:+ Text.decimal (N.of_nat ruleNum))
    r prefixFragment features.

(** The digest behind a rule's hash, a function of the chain name, the
    rule's index, its content and the features it renders under. *)
Definition Digest := string -> nat -> Rule -> Features -> string.

(** Modelled from the spec: [Chain.RuleHashes] is not among the sources.
    It returns one fingerprint per rule, in order, each a deterministic
    function of chain name, rule index and rule content. *)
Definition RuleHashes (digest : Digest) (c : Chain) (features : Features)
  : list string :=
  imap (fun i r => digest (Name c) i r features) (Rules c).

(** Modelled from the spec: [RuleHashes] on a [nil] chain, which the
    nftables pass calls for a chain that is being deleted; it has no
    fingerprints, the [nil] slice. *)
Definition RuleHashesPtr (digest : Digest) (c : option Chain)
  (features : Features) : option (list string) :=
  match c with
  | Some c => Some (RuleHashes digest c features)
  | None => None
  end.

End Chains.

(** ** The restore input builder *)

Module Builder.

(** What the buffer holds, line by line. *)
Inductive RestoreLine :=
| TableOpener (table : string)
| ForwardReference (chainName : string)
| RuleLine (line : string)
| Commit.

#[global] Instance RestoreLine_eq_dec : EqDecision RestoreLine.
Proof. solve_decision. Defined.

(** Modelled from the spec: [RestoreInputBuilder] is not among the
    sources.  It accumulates the lines of one or more transactions, each
    scoped by a start and end call naming the table; a transaction in
    which nothing was written is discarded without a trace. *)
Record RestoreInputBuilder := {
  buf : list RestoreLine;
  currentTableName : string;
  txnOpenerWritten : bool
}.

Definition Reset (b : RestoreInputBuilder) : RestoreInputBuilder :=
  {| buf := []; currentTableName := EmptyString; txnOpenerWritten := false |}.

Definition StartTransaction (b : RestoreInputBuilder) (tableName : string)
  : RestoreInputBuilder :=
  {| buf := buf b; currentTableName := tableName; txnOpenerWritten := false |}.

Definition maybeWriteTransactionOpener (b : RestoreInputBuilder)
  : RestoreInputBuilder :=
  if txnOpenerWritten b then b
  else {| buf := buf b ++ [TableOpener (currentTableName b)];
          currentTableName := currentTableName b;
          txnOpenerWritten := true |}.

Definition write (b : RestoreInputBuilder) (l : RestoreLine) : RestoreInputBuilder :=
  let b := maybeWriteTransactionOpener b in
  {| buf := buf b ++ [l];
     currentTableName := currentTableName b;
     txnOpenerWritten := txnOpenerWritten b |}.

Definition WriteForwardReference (b : RestoreInputBuilder) (chainName : string) :=
  write b (ForwardReference chainName).

Definition WriteLine (b : RestoreInputBuilder) (line : string) :=
  write b (RuleLine line).

Definition EndTransaction (b : RestoreInputBuilder) : RestoreInputBuilder :=
  {| buf := if txnOpenerWritten b then buf b ++ [Commit] else buf b;
     currentTableName := EmptyString;
     txnOpenerWritten := false |}.

Definition Empty (b : RestoreInputBuilder) : bool :=
  match buf b with [] => true | _ => false end.

Definition GetBytesAndReset (b : RestoreInputBuilder)
  : list RestoreLine * RestoreInputBuilder :=
  (buf b, Reset b).

(** The zero value of the struct. *)
Definition empty : RestoreInputBuilder :=
  {| buf := []; currentTableName := EmptyString; txnOpenerWritten := false |}.

End Builder.

(** ** Time *)

Definition Millisecond : Z := 1000000.
Definition Second : Z := 1000 * Millisecond.
Definition Hour : Z := 3600 * Second.
Definition minPostWriteInterval : Z := 50 * Millisecond.
Definition MaxChainNameLength : Z := 28.

Definition minDuration : Z := - 2 ^ 63.
Definition maxDuration : Z := 2 ^ 63 - 1.

(** 64-bit two's complement wrap-around of [Duration] arithmetic. *)
Definition wrap64 (z : Z) : Z := (z + 2 ^ 63) mod 2 ^ 64 - 2 ^ 63.

(** [Time.Sub]: the difference, saturated to the range of [Duration]. *)
Definition timeSub (t u : Z) : Z := Z.max minDuration (Z.min maxDuration (t - u)).

(** [Time.Add]. *)
Definition timeAdd (t d : Z) : Z := t + d.

(** [Time.Before]. *)
Definition timeBefore (t u : Z) : bool := t <? u.

(** ** The outside world *)

(** What [bufio.Scanner] makes of a reader: the lines it yields and whether
    [scanner.Err()] is set once it stops. *)
Record Reader := {
  scannedLines : list string;
  scanErr : bool
}.

(** One run of the save command. *)
Inductive SaveRun :=
| SaveNotStarted
    (* [StdoutPipe] or [Start] failed *)
| SaveRan (stdout : Reader) (killFails waitFails : bool).

Record Env := {
  timeNow : nat -> Z;
    (* the answer of the n-th call to [timeNow()] *)
  saveCmd : nat -> SaveRun;
    (* the n-th run of the save command *)
  restoreCmd : nat -> list Builder.RestoreLine -> bool;
    (* whether the n-th run of the restore command, on this input, succeeds *)
  probeFeatures : nat -> Features;
    (* what the n-th [RefreshFeatures()] detects *)
  lookPath : string -> bool;
    (* whether [lookPath] finds the executable *)
  digest : Chains.Digest
}.

Record World := {
  clockReads : nat;
  saveRuns : nat;
  probes : nat;
  detected : Features;
    (* the snapshot held by the feature detector *)
  slept : list Z;
    (* arguments of [timeSleep], oldest first *)
  restoreLog : list (list Builder.RestoreLine * bool)
    (* inputs given to the restore command and whether it succeeded, oldest first *)
}.

Inductive Outcome (A : Type) :=
| Done (a : A)
| Panicked.
Arguments Done {A} a.
Arguments Panicked {A}.

(** Computations that read and change the world and may panic. *)
Definition M (A : Type) : Type := World -> Outcome A * World.

Definition ret {A} (a : A) : M A := fun w => (Done a, w).

Definition bind {A B} (m : M A) (k : A -> M B) : M B :=
  fun w =>
    match m w with
    | (Done a, w') => k a w'
    | (Panicked, w') => (Panicked, w')
    end.

Definition panic {A} : M A := fun w => (Panicked, w).

Declare Scope table_scope.
Delimit Scope table_scope with table.
Notation "x <- m ;; k" := (bind m (fun x => k))
  (at level 100, m at next level, right associativity) : table_scope.
Open Scope table_scope.

Section Effects.
Variable env : Env.

Definition now : M Z := fun w =>
  (Done (timeNow env (clockReads w)),
   {| clockReads := S (clockReads w); saveRuns := saveRuns w; probes := probes w;
      detected := detected w; slept := slept w; restoreLog := restoreLog w |}).

Definition timeSleep (d : Z) : M unit := fun w =>
  (Done tt,
   {| clockReads := clockReads w; saveRuns := saveRuns w; probes := probes w;
      detected := detected w; slept := slept w ++ [d]; restoreLog := restoreLog w |}).

(** Modelled from the spec: the feature detector is not among the
    sources.  [RefreshFeatures] probes the environment and keeps the
    result; [GetFeatures] returns the snapshot. *)
Definition RefreshFeatures : M unit := fun w =>
  (Done tt,
   {| clockReads := clockReads w; saveRuns := saveRuns w; probes := S (probes w);
      detected := probeFeatures env (probes w); slept := slept w;
      restoreLog := restoreLog w |}).

Definition GetFeatures : M Features := fun w => (Done (detected w), w).

(** [t.newCmd(t.iptablesSaveCmd, "-t", t.Name)] and its run. *)
Definition runSave : M SaveRun := fun w =>
  (Done (saveCmd env (saveRuns w)),
   {| clockReads := clockReads w; saveRuns := S (saveRuns w); probes := probes w;
      detected := detected w; slept := slept w; restoreLog := restoreLog w |}).

(** [cmd.Run()] of the restore command on [input]; [true] when [err == nil]. *)
Definition runRestore (input : list Builder.RestoreLine) : M bool := fun w =>
  let ok := restoreCmd env (length (restoreLog w)) input in
  (Done ok,
   {| clockReads := clockReads w; saveRuns := saveRuns w; probes := probes w;
      detected := detected w; slept := slept w;
      restoreLog := restoreLog w ++ [(input, ok)] |}).

End Effects.

(** ** The table *)

(** List of all the top-level kernel-created chains by iptables table. *)
Definition tableToKernelChains : gmap string (list string) :=
  list_to_map [
    ("filter", ["INPUT"; "FORWARD"; "OUTPUT"]);
    ("nat", ["PREROUTING"; "INPUT"; "OUTPUT"; "POSTROUTING"]);
    ("mangle", ["PREROUTING"; "INPUT"; "FORWARD"; "OUTPUT"; "POSTROUTING"]);
    ("raw", ["PREROUTING"; "OUTPUT"])
  ].

Record Table := {
  Name : string;
  IPVersion : Z;
  chainToInsertedRules : gmap string (list Chains.Rule);
  dirtyInserts : gset string;
  chainNameToChain : gmap string Chains.Chain;
  dirtyChains : gset string;
  inSyncWithDataPlane : bool;
  chainToDataplaneHashes : gmap string (list string);
  hashCommentPrefix : string;
  hashCommentRegexp : string -> option string;
    (* [FindSubmatch]: capture 1 of the leftmost match *)
  ourChainsRegexp : string -> bool;
    (* [MatchString] *)
  oldInsertRegexp : string -> bool;
    (* [Find(line) != nil] *)
  nftablesMode : bool;
  iptablesRestoreCmd : string;
  iptablesSaveCmd : string;
  insertMode : string;
  lastReadTime : Z;
  lastWriteTime : Z;
  initialPostWriteInterval : Z;
  postWriteInterval : Z;
  refreshInterval : Z;
  lockTimeout : Z;
  lockProbeInterval : Z
}.

Record TableOptions := {
  HistoricChainPrefixes : list string;
  ExtraCleanupRegexPattern : string;
  BackendMode : string;
  InsertMode : string;
  RefreshInterval : Z;
  PostWriteInterval : Z;
  LockTimeout : Z;
  LockProbeInterval : Z
}.

(** The fields that change after construction, replaced together. *)
Definition withState (t : Table)
  (inserts : gmap string (list Chains.Rule)) (dInserts : gset string)
  (chains : gmap string Chains.Chain) (dChains : gset string)
  (inSync : bool) (hashes : gmap string (list string))
  (lastRead lastWrite postWrite : Z) : Table :=
  {| Name := Name t;
     IPVersion := IPVersion t;
     chainToInsertedRules := inserts;
     dirtyInserts := dInserts;
     chainNameToChain := chains;
     dirtyChains := dChains;
     inSyncWithDataPlane := inSync;
     chainToDataplaneHashes := hashes;
     hashCommentPrefix := hashCommentPrefix t;
     hashCommentRegexp := hashCommentRegexp t;
     ourChainsRegexp := ourChainsRegexp t;
     oldInsertRegexp := oldInsertRegexp t;
     nftablesMode := nftablesMode t;
     iptablesRestoreCmd := iptablesRestoreCmd t;
     iptablesSaveCmd := iptablesSaveCmd t;
     insertMode := insertMode t;
     lastReadTime := lastRead;
     lastWriteTime := lastWrite;
     initialPostWriteInterval := initialPostWriteInterval t;
     postWriteInterval := postWrite;
     refreshInterval := refreshInterval t;
     lockTimeout := lockTimeout t;
     lockProbeInterval := lockProbeInterval t |}.

Definition setInserts (t : Table) v :=
  withState t v (dirtyInserts t) (chainNameToChain t) (dirtyChains t)
    (inSyncWithDataPlane t) (chainToDataplaneHashes t)
    (lastReadTime t) (lastWriteTime t) (postWriteInterval t).
Definition setDirtyInserts (t : Table) v :=
  withState t (chainToInsertedRules t) v (chainNameToChain t) (dirtyChains t)
    (inSyncWithDataPlane t) (chainToDataplaneHashes t)
    (lastReadTime t) (lastWriteTime t) (postWriteInterval t).
Definition setChains (t : Table) v :=
  withState t (chainToInsertedRules t) (dirtyInserts t) v (dirtyChains t)
    (inSyncWithDataPlane t) (chainToDataplaneHashes t)
    (lastReadTime t) (lastWriteTime t) (postWriteInterval t).
Definition setDirtyChains (t : Table) v :=
  withState t (chainToInsertedRules t) (dirtyInserts t) (chainNameToChain t) v
    (inSyncWithDataPlane t) (chainToDataplaneHashes t)
    (lastReadTime t) (lastWriteTime t) (postWriteInterval t).
Definition setInSync (t : Table) v :=
  withState t (chainToInsertedRules t) (dirtyInserts t) (chainNameToChain t)
    (dirtyChains t) v (chainToDataplaneHashes t)
    (lastReadTime t) (lastWriteTime t) (postWriteInterval t).
Definition setDataplaneHashes (t : Table) v :=
  withState t (chainToInsertedRules t) (dirtyInserts t) (chainNameToChain t)
    (dirtyChains t) (inSyncWithDataPlane t) v
    (lastReadTime t) (lastWriteTime t) (postWriteInterval t).
Definition setLastReadTime (t : Table) v :=
  withState t (chainToInsertedRules t) (dirtyInserts t) (chainNameToChain t)
    (dirtyChains t) (inSyncWithDataPlane t) (chainToDataplaneHashes t)
    v (lastWriteTime t) (postWriteInterval t).
Definition setLastWriteTime (t : Table) v :=
  withState t (chainToInsertedRules t) (dirtyInserts t) (chainNameToChain t)
    (dirtyChains t) (inSyncWithDataPlane t) (chainToDataplaneHashes t)
    (lastReadTime t) v (postWriteInterval t).
Definition setPostWriteInterval (t : Table) v :=
  withState t (chainToInsertedRules t) (dirtyInserts t) (chainNameToChain t)
    (dirtyChains t) (inSyncWithDataPlane t) (chainToDataplaneHashes t)
    (lastReadTime t) (lastWriteTime t) v.

(** [len] of a slice that may be [nil]. *)
Definition len {A} (s : option (list A)) : nat :=
  match s with Some l => length l | None => 0%nat end.

(** The elements of a slice that may be [nil], for [range]. *)
Definition elems {A} (s : option (list A)) : list A :=
  match s with Some l => l | None => [] end.

(** [reflect.DeepEqual] on [[]string]: a [nil] slice equals only [nil]. *)
Definition DeepEqual (a b : option (list string)) : bool := bool_decide (a = b).

Definition numEmptyStrings (strs : option (list string)) : nat :=
  foldl (fun count s => if decide (s = EmptyString) then S count else count)
    0%nat (elems strs).

Definition commentFrag (t : Table) (hash : string) : string :=
  "-m comment --comment " +:+ Text.quote +:+ hashCommentPrefix t +:+ hash +:+ Text.quote.

Definition deleteRule (chainName : string) (ruleNum : nat) : string :=
  "-D " +:+ chainName +:+ " " +:+ Text.decimal (N.of_nat ruleNum).

Definition deleteChain (chainName : string) : string :=
  "--delete-chain " +:+ chainName.

Definition calculateRuleInsertHashes (d : Chains.Digest) (chainName : string)
  (rules : list Chains.Rule) (features : Features) : list string :=
  Chains.RuleHashes d {| Chains.Name := chainName; Chains.Rules := rules |} features.

(** ** Desired-state operations *)

Definition InvalidateDataplaneCache (t : Table) (reason : string) : Table :=
  if negb (inSyncWithDataPlane t) then t else setInSync t false.

Definition SetRuleInsertions (t : Table) (chainName : string)
  (rules : list Chains.Rule) : Table :=
  let t := setInserts t (<[chainName := rules]> (chainToInsertedRules t)) in
  let t := setDirtyInserts t ({[chainName]} ∪ dirtyInserts t) in
  InvalidateDataplaneCache t "insertion".

Definition UpdateChain (t : Table) (chain : Chains.Chain) : Table :=
  let t := setChains t (<[Chains.Name chain := chain]> (chainNameToChain t)) in
  let t := setDirtyChains t ({[Chains.Name chain]} ∪ dirtyChains t) in
  InvalidateDataplaneCache t "chain update".

Definition UpdateChains (t : Table) (chains : list Chains.Chain) : Table :=
  foldl UpdateChain t chains.

Definition RemoveChainByName (t : Table) (name : string) : Table :=
  let t :=
    match chainNameToChain t !! name with
    | Some _ =>
        let t := setChains t (delete name (chainNameToChain t)) in
        setDirtyChains t ({[name]} ∪ dirtyChains t)
    | None => t
    end in
  InvalidateDataplaneCache t "chain removal".

Definition RemoveChains (t : Table) (chains : list Chains.Chain) : Table :=
  foldl (fun t chain => RemoveChainByName t (Chains.Name chain)) t chains.

(** ** Reading the dataplane *)

(** The fixed non-empty hash given to rules inserted by versions of felix
    that did not write hashes. *)
Definition oldInsertRuleHash : string := "OLD INSERT RULE".

(** The hash recorded for a rule line: the first hash comment if there is
    one, the dummy value for an old insert, the zero string otherwise. *)
Definition lineHash (t : Table) (line : string) : string :=
  match hashCommentRegexp t line with
  | Some hash => hash
  | None => if oldInsertRegexp t line then oldInsertRuleHash else EmptyString
  end.

(** One turn of the scanner loop of [readHashesFrom]. *)
Definition readLine (t : Table) (hashes : gmap string (list string))
  (line : string) : gmap string (list string) :=
  match Regexp.chainCreateRegexp line with
  | Some chainName =>
      (* Chain forward-reference, make sure the chain exists. *)
      <[chainName := []]> hashes
  | None =>
      match Regexp.appendRegexp line with
      | None =>
          (* Skip any non-append lines. *)
          hashes
      | Some chainName =>
          <[chainName := elems (hashes !! chainName) ++ [lineHash t line]]> hashes
      end
  end.

(** [readHashesFrom]; [None] is the error return [(nil, scanner.Err())]. *)
Definition readHashesFrom (t : Table) (r : Reader)
  : option (gmap string (list string)) :=
  let hashes := foldl (readLine t) ∅ (scannedLines r) in
  if scanErr r then None else Some hashes.

(** [expectedHashesForInsertChain] writes our hashes into the zeroed slice,
    from [offset] on. *)
Fixpoint storeHashes (allHashes : list string) (offset : nat)
  (ourHashes : list string) : list string :=
  match ourHashes with
  | [] => allHashes
  | hash :: rest => storeHashes (<[offset := hash]> allHashes) (S offset) rest
  end.

(** [features] is what [t.featureDetector.GetFeatures()] returns at the call. *)
Definition expectedHashesForInsertChain (d : Chains.Digest) (t : Table)
  (features : Features) (chainName : string) (numNonCalicoRules : nat)
  : list string * list string :=
  let insertedRules := elems (chainToInsertedRules t !! chainName) in
  let allHashes := replicate (length insertedRules + numNonCalicoRules) EmptyString in
  let ourHashes := calculateRuleInsertHashes d chainName insertedRules features in
  let offset := if decide (insertMode t = "append") then numNonCalicoRules else 0%nat in
  (storeHashes allHashes offset ourHashes, ourHashes).

Section Dataplane.
Variable env : Env.

(** [None] is a non-nil [err]. *)
Definition attemptToGetHashesFromDataplane (t : Table)
  : M (option (gmap string (list string))) :=
  run <- runSave env ;;
  match run with
  | SaveNotStarted => ret None
  | SaveRan stdout killFails waitFails =>
      match readHashesFrom t stdout with
      | None =>
          (* kill the process after a failure *)
          if killFails then panic else ret None
      | Some hashes =>
          if waitFails then ret None else ret (Some hashes)
      end
  end.

(** The loop of [getHashesFromDataplane], [retries] retries left. *)
Fixpoint getHashesFromDataplaneLoop (t : Table) (retries : nat) (retryDelay : Z)
  : M (gmap string (list string)) :=
  r <- attemptToGetHashesFromDataplane t ;;
  match r with
  | Some hashes => ret hashes
  | None =>
      match retries with
      | S retries' =>
          _ <- timeSleep retryDelay ;;
          getHashesFromDataplaneLoop t retries' (wrap64 (retryDelay * 2))
      | O => panic
      end
  end.

Definition getHashesFromDataplane (t : Table) : M (gmap string (list string)) :=
  getHashesFromDataplaneLoop t 3 (100 * Millisecond).

Definition hasNonEmpty (hashes : option (list string)) : bool :=
  existsb (fun hash => negb (bool_decide (hash = EmptyString))) (elems hashes).

Definition markDirtyInsert (t : Table) (chainName : string) : Table :=
  setDirtyInserts t ({[chainName]} ∪ dirtyInserts t).

Definition markDirtyChain (t : Table) (chainName : string) : Table :=
  setDirtyChains t ({[chainName]} ∪ dirtyChains t).

(** Body of the first loop of [loadDataplaneState]: check that the rules
    we think we have programmed are still there. *)
Definition checkExpected (dataplaneHashes : gmap string (list string))
  (features : Features) (t : Table) (entry : string * list string) : Table :=
  let '(chainName, expectedHashes) := entry in
  if bool_decide (chainName ∈ dirtyChains t) || bool_decide (chainName ∈ dirtyInserts t)
  then t
  else
    let dpHashes := dataplaneHashes !! chainName in
    if negb (ourChainsRegexp t chainName) then
      let insertedRules := chainToInsertedRules t !! chainName in
      if (len insertedRules =? 0)%nat then
        if hasNonEmpty dpHashes then markDirtyInsert t chainName else t
      else
        let expectedHashes :=
          fst (expectedHashesForInsertChain (digest env) t features chainName
                 (numEmptyStrings dpHashes)) in
        if negb (DeepEqual dpHashes (Some expectedHashes))
        then markDirtyInsert t chainName else t
    else
      if negb (DeepEqual dpHashes (Some expectedHashes))
      then markDirtyChain t chainName else t.

(** Body of the second loop: chains that should not be there. *)
Definition checkUnexpected (t : Table) (entry : string * list string) : Table :=
  let '(chainName, dataplaneHashes) := entry in
  if bool_decide (chainName ∈ dirtyChains t) || bool_decide (chainName ∈ dirtyInserts t)
  then t
  else if bool_decide (is_Some (chainToDataplaneHashes t !! chainName)) then t
  else if negb (ourChainsRegexp t chainName) then
    if hasNonEmpty (Some dataplaneHashes) then markDirtyInsert t chainName else t
  else markDirtyChain t chainName.

Definition loadDataplaneState (t : Table) : M Table :=
  _ <- RefreshFeatures env ;;
  readTime <- now env ;;
  let t := setLastReadTime t readTime in
  dataplaneHashes <- getHashesFromDataplane t ;;
  features <- GetFeatures ;;
  let t := foldl (checkExpected dataplaneHashes features) t
             (map_to_list (chainToDataplaneHashes t)) in
  let t := foldl checkUnexpected t (map_to_list dataplaneHashes) in
  let t := setDataplaneHashes t dataplaneHashes in
  ret (setInSync t true).

End Dataplane.

(** ** Writing the updates *)

Inductive error := RestoreFailed.

(** What the update passes fill in: the restore input and the hashes that
    the dataplane will hold once it is applied ([Some None] is a [nil]
    entry, a deleted chain). *)
Abbreviation NewHashes := (gmap string (option (list string))).

Section Updates.
Variable env : Env.
Variable t : Table.
Variable features : Features.

(** First pass over the dirty chains: a forward reference for each chain
    that is about to be created, deleted or (nftables) refreshed.  The
    second component is the set being iterated; [set.RemoveItem] removes
    the current item from it. *)
Definition forwardReferencePass (acc : Builder.RestoreInputBuilder * gset string)
  (chainName : string) : Builder.RestoreInputBuilder * gset string :=
  let '(buf, dirty) := acc in
  if nftablesMode t then
    let chain := chainNameToChain t !! chainName in
    let currentHashes := Chains.RuleHashesPtr (digest env) chain features in
    let previousHashes := chainToDataplaneHashes t !! chainName in
    if (0 <? len previousHashes)%nat && DeepEqual currentHashes previousHashes then
      (* Chain is already correct, skip it. *)
      (buf, dirty ∖ {[chainName]})
    else (Builder.WriteForwardReference buf chainName, dirty)
  else if negb (bool_decide (is_Some (chainNameToChain t !! chainName))) then
    (* About to delete this chain, flush it first to sever dependencies. *)
    (Builder.WriteForwardReference buf chainName, dirty)
  else if negb (bool_decide (is_Some (chainToDataplaneHashes t !! chainName))) then
    (* Chain doesn't exist in dataplane, mark it for creation. *)
    (Builder.WriteForwardReference buf chainName, dirty)
  else (buf, dirty).

(** The loop [for i := 0; i < len(previousHashes) || i < len(currentHashes); i++]
    with [n] turns left, at index [i]; [rules] is [chain.Rules].
    [chain.Rules[i]] is in range whenever [currentHashes[i]] is, since
    [RuleHashes] has one hash per rule. *)
Fixpoint chainDiff (chainName : string) (rules : list Chains.Rule)
  (previousHashes currentHashes : list string) (n i : nat) : list string :=
  match n with
  | O => []
  | S n' =>
      let line :=
        match previousHashes !! i, currentHashes !! i with
        | Some previous, Some current =>
            if decide (previous = current) then []
            else
              (* Hash doesn't match, replace the rule. *)
              match rules !! i with
              | Some rule =>
                  [Chains.RenderReplace rule chainName (i + 1)
                     (commentFrag t current) features]
              | None => []
              end
        | Some _, None =>
            (* previousHashes was longer, remove the old rules from the end. *)
            [deleteRule chainName (length currentHashes + 1)]
        | None, Some current =>
            (* currentHashes was longer.  Append. *)
            match rules !! i with
            | Some rule =>
                [Chains.RenderAppend rule chainName (commentFrag t current) features]
            | None => []
            end
        | None, None => []
        end in
      line ++ chainDiff chainName rules previousHashes currentHashes n' (S i)
  end.

(** The lines the second pass writes for one dirty chain. *)
Definition chainUpdateLines (chainName : string) : list string :=
  match chainNameToChain t !! chainName with
  | Some chain =>
      let previousHashes :=
        if nftablesMode t then None else chainToDataplaneHashes t !! chainName in
      let currentHashes := Chains.RuleHashes (digest env) chain features in
      chainDiff chainName (Chains.Rules chain) (elems previousHashes) currentHashes
        (max (len previousHashes) (length currentHashes)) 0
  | None => []
  end.

Definition writeLines (buf : Builder.RestoreInputBuilder) (lines : list string) :=
  foldl Builder.WriteLine buf lines.

(** Second pass over the dirty chains: the rule changes. *)
Definition chainUpdatePass (acc : Builder.RestoreInputBuilder * NewHashes)
  (chainName : string) : Builder.RestoreInputBuilder * NewHashes :=
  let '(buf, newHashes) := acc in
  match chainNameToChain t !! chainName with
  | Some chain =>
      (writeLines buf (chainUpdateLines chainName),
       <[chainName := Some (Chains.RuleHashes (digest env) chain features)]> newHashes)
  | None => (buf, newHashes)
  end.

(** [for i := len(previousHashes) - 1; i >= 0; i--], with [n = i + 1]. *)
Fixpoint deleteInserted (chainName : string) (previousHashes : list string)
  (n : nat) : list string :=
  match n with
  | O => []
  | S i =>
      match previousHashes !! i with
      | Some hash =>
          if decide (hash = EmptyString) then [] else [deleteRule chainName (i + 1)]
      | None => []
      end ++ deleteInserted chainName previousHashes i
  end.

(** [for i := len(rules) - 1; i >= 0; i--], with [n = i + 1]. *)
Fixpoint renderInserts (chainName : string) (rules : list Chains.Rule)
  (newRuleHashes : list string) (n : nat) : list string :=
  match n with
  | O => []
  | S i =>
      match rules !! i, newRuleHashes !! i with
      | Some rule, Some hash =>
          [Chains.RenderInsert rule chainName (commentFrag t hash) features]
      | _, _ => []
      end ++ renderInserts chainName rules newRuleHashes i
  end.

(** [for i := 0; i < len(rules); i++], with [n] turns left. *)
Fixpoint renderAppends (chainName : string) (rules : list Chains.Rule)
  (newRuleHashes : list string) (n i : nat) : list string :=
  match n with
  | O => []
  | S n' =>
      match rules !! i, newRuleHashes !! i with
      | Some rule, Some hash =>
          [Chains.RenderAppend rule chainName (commentFrag t hash) features]
      | _, _ => []
      end ++ renderAppends chainName rules newRuleHashes n' (S i)
  end.

(** The lines written for one dirty insertion target once it is found out
    of sync. *)
Definition insertUpdateLines (chainName : string) (newRuleHashes : list string)
  : list string :=
  let previousHashes := elems (chainToDataplaneHashes t !! chainName) in
  let rules := elems (chainToInsertedRules t !! chainName) in
  deleteInserted chainName previousHashes (length previousHashes)
  ++ (if decide (insertMode t = "insert")
      then renderInserts chainName rules newRuleHashes (length rules)
      else renderAppends chainName rules newRuleHashes (length rules) 0).

(** Third pass: the inserted rules, which hook the top-level chains. *)
Definition insertPass (acc : Builder.RestoreInputBuilder * NewHashes)
  (chainName : string) : Builder.RestoreInputBuilder * NewHashes :=
  let '(buf, newHashes) := acc in
  let previousHashes := chainToDataplaneHashes t !! chainName in
  let '(newChainHashes, newRuleHashes) :=
    expectedHashesForInsertChain (digest env) t features chainName
      (numEmptyStrings previousHashes) in
  if DeepEqual (Some newChainHashes) previousHashes then
    (* Chain is in sync, skip to next one. *)
    (buf, newHashes)
  else
    (writeLines buf (insertUpdateLines chainName newRuleHashes),
     <[chainName := Some newChainHashes]> newHashes).

(** nftables only: forward references for the deletions, in a transaction
    of their own. *)
Definition deletionFlushPass (buf : Builder.RestoreInputBuilder)
  (chainName : string) : Builder.RestoreInputBuilder :=
  if bool_decide (is_Some (chainNameToChain t !! chainName)) then buf
  else Builder.WriteForwardReference buf chainName.

(** Last pass: the deletions. *)
Definition deletionPass (acc : Builder.RestoreInputBuilder * NewHashes)
  (chainName : string) : Builder.RestoreInputBuilder * NewHashes :=
  let '(buf, newHashes) := acc in
  if bool_decide (is_Some (chainNameToChain t !! chainName)) then (buf, newHashes)
  else (Builder.WriteLine buf (deleteChain chainName), <[chainName := None]> newHashes).

End Updates.

Section Apply.
Variable env : Env.

(** [for chainName, hashes := range newHashes]: store off the updates. *)
Definition storeUpdate (hashes : gmap string (list string))
  (entry : string * option (list string)) : gmap string (list string) :=
  match entry with
  | (chainName, None) => delete chainName hashes
  | (chainName, Some h) => <[chainName := h]> hashes
  end.

Definition storeUpdates (newHashes : NewHashes) (hashes : gmap string (list string))
  : gmap string (list string) :=
  foldl storeUpdate hashes (map_to_list newHashes).

(** The restore input built by the passes of [applyUpdates], with the
    dirty-chain set as the first pass leaves it and the new hashes. *)
Definition buildUpdates (t : Table) (features : Features)
  : Builder.RestoreInputBuilder * Table * NewHashes :=
  let buf := Builder.Reset Builder.empty in
  let buf := Builder.StartTransaction buf (Name t) in
  let '(buf, dirty) :=
    foldl (forwardReferencePass env t features) (buf, dirtyChains t)
      (elements (dirtyChains t)) in
  let t := setDirtyChains t dirty in
  let '(buf, newHashes) :=
    foldl (chainUpdatePass env t features) (buf, ∅) (elements (dirtyChains t)) in
  let '(buf, newHashes) :=
    foldl (insertPass env t features) (buf, newHashes) (elements (dirtyInserts t)) in
  let buf :=
    if nftablesMode t then
      let buf := Builder.EndTransaction buf in
      let buf := Builder.StartTransaction buf (Name t) in
      foldl (deletionFlushPass t) buf (elements (dirtyChains t))
    else buf in
  let '(buf, newHashes) :=
    foldl (deletionPass t) (buf, newHashes) (elements (dirtyChains t)) in
  (Builder.EndTransaction buf, t, newHashes).

(** The end of [applyUpdates], once iptables is updated (or there was
    nothing to do): clear the dirty sets and store off the updates. *)
Definition finishUpdates (t : Table) (newHashes : NewHashes) : Table :=
  let t := setDirtyChains t ∅ in
  let t := setDirtyInserts t ∅ in
  setDataplaneHashes t (storeUpdates newHashes (chainToDataplaneHashes t)).

Definition applyUpdates (t : Table) : M (Table * option error) :=
  features <- GetFeatures ;;
  let '(buf, t, newHashes) := buildUpdates t features in
  if Builder.Empty buf then
    (* Update ended up being no-op, skipping call to ip(6)tables-restore. *)
    ret (finishUpdates t newHashes, None)
  else
    let '(inputBytes, _) := Builder.GetBytesAndReset buf in
    ok <- runRestore env inputBytes ;;
    if negb ok then ret (setInSync t false, Some RestoreFailed)
    else
      writeTime <- now env ;;
      let t := setLastWriteTime t writeTime in
      let t := setPostWriteInterval t (initialPostWriteInterval t) in
      ret (finishUpdates t newHashes, None).

(** The loop at the head of [Apply] that doubles the post-write interval,
    with [fuel] turns left; the second component is [invalidated]. *)
Fixpoint postWriteBackoff (fuel : nat) (nowTime : Z) (t : Table) (invalidated : bool)
  : Table * bool :=
  match fuel with
  | O => (t, invalidated)
  | S fuel' =>
      if negb (postWriteInterval t =? 0)
         && (postWriteInterval t <? Hour)
         && negb (timeBefore nowTime (timeAdd (lastWriteTime t) (postWriteInterval t)))
      then
        let t := setPostWriteInterval t (wrap64 (postWriteInterval t * 2)) in
        if negb invalidated
        then postWriteBackoff fuel' nowTime (InvalidateDataplaneCache t "post update") true
        else postWriteBackoff fuel' nowTime t invalidated
      else (t, invalidated)
  end.

(** The retry loop of [Apply], [retries] retries left. *)
Fixpoint applyRetryLoop (retries : nat) (backoffTime : Z) (t : Table) : M Table :=
  t <- (if negb (inSyncWithDataPlane t) then loadDataplaneState env t else ret t) ;;
  r <- applyUpdates t ;;
  match r with
  | (t, None) => ret t
  | (t, Some _) =>
      match retries with
      | S retries' =>
          _ <- timeSleep backoffTime ;;
          applyRetryLoop retries' (wrap64 (backoffTime * 2)) t
      | O =>
          (* load diags, then panic *)
          _ <- runSave env ;;
          panic
      end
  end.

(** The tail of [Apply]: whether we need to be rescheduled and how soon. *)
Definition reschedule (t : Table) (nowTime : Z) : Z :=
  let rescheduleAfter :=
    if 0 <? refreshInterval t
    then wrap64 (refreshInterval t - timeSub nowTime (lastReadTime t))
    else 0 in
  if postWriteInterval t <? Hour then
    let postWriteReched :=
      timeSub (timeAdd (lastWriteTime t) (postWriteInterval t)) nowTime in
    if postWriteReched <=? 0 then 1 * Millisecond
    else if (refreshInterval t <=? 0) || (postWriteReched <? rescheduleAfter)
         then postWriteReched
         else rescheduleAfter
  else rescheduleAfter.

(** The head of [Apply]: the two timers that invalidate the cache. *)
Definition checkTimers (t : Table) (nowTime : Z) : Table :=
  let lastReadToNow := timeSub nowTime (lastReadTime t) in
  let '(t, invalidated) :=
    if (0 <? refreshInterval t) && (refreshInterval t <? lastReadToNow)
    then (InvalidateDataplaneCache t "refresh timer", true)
    else (t, false) in
  fst (postWriteBackoff 64 nowTime t invalidated).

Definition Apply (t : Table) : M (Table * Z) :=
  nowTime <- now env ;;
  let t := checkTimers t nowTime in
  t <- applyRetryLoop 10 (1 * Millisecond) t ;;
  ret (t, reschedule t nowTime).

(** [findBestBinary]: the first candidate that [lookPath] finds. *)
Definition findBestBinary (ipVersion : Z) (backendMode saveOrRestore : string)
  : M string :=
  let verInfix := if ipVersion =? 6 then "6" else EmptyString in
  let candidates := [
    "ip" +:+ verInfix +:+ "tables-" +:+ backendMode +:+ "-" +:+ saveOrRestore;
    "ip" +:+ verInfix +:+ "tables-" +:+ saveOrRestore
  ] in
  match filter (fun c => lookPath env c = true) candidates with
  | candidate :: _ => ret candidate
  | [] => panic
  end.

Definition NewTable (name : string) (ipVersion : Z) (hashPrefix : string)
  (options : TableOptions) : M Table :=
  (* Pre-populate the insert table with empty lists for each kernel chain. *)
  let kernelChains := elems (tableToKernelChains !! name) in
  let inserts : gmap string (list Chains.Rule) :=
    foldl (fun m kernelChain => <[kernelChain := []]> m) ∅ kernelChains in
  let dirty : gset string :=
    foldl (fun s kernelChain => {[kernelChain]} ∪ s) ∅ kernelChains in
  insertModeValue <-
    (if decide (InsertMode options = EmptyString) then ret "insert"
     else if decide (InsertMode options = "insert") then ret "insert"
     else if decide (InsertMode options = "append") then ret "append"
     else panic) ;;
  let postWrite :=
    if PostWriteInterval options <=? minPostWriteInterval
    then minPostWriteInterval else PostWriteInterval options in
  writeTime <- now env ;;
  let iptablesVariant :=
    let v := Text.toLower (BackendMode options) in
    if decide (v = EmptyString) then "legacy" else v in
  restoreName <- findBestBinary ipVersion iptablesVariant "restore" ;;
  saveName <- findBestBinary ipVersion iptablesVariant "save" ;;
  ret {| Name := name;
         IPVersion := ipVersion;
         chainToInsertedRules := inserts;
         dirtyInserts := dirty;
         chainNameToChain := ∅;
         dirtyChains := ∅;
         inSyncWithDataPlane := false;
         chainToDataplaneHashes := ∅;
         hashCommentPrefix := hashPrefix;
         hashCommentRegexp := Regexp.hashCommentRegexp hashPrefix;
         ourChainsRegexp := Regexp.ourChainsRegexp (HistoricChainPrefixes options);
         oldInsertRegexp :=
           Regexp.oldInsertRegexp (HistoricChainPrefixes options)
             (ExtraCleanupRegexPattern options);
         nftablesMode := bool_decide (iptablesVariant = "nft");
         iptablesRestoreCmd := restoreName;
         iptablesSaveCmd := saveName;
         insertMode := insertModeValue;
         lastReadTime := - (62135596800 * Second);
         lastWriteTime := writeTime;
         initialPostWriteInterval := postWrite;
         postWriteInterval := postWrite;
         refreshInterval := RefreshInterval options;
         lockTimeout := LockTimeout options;
         lockProbeInterval := LockProbeInterval options |}.

End Apply.


(** ** The save format, as the interface describes it *)

Module SaveFormat.

(** The characters of a text, in order. *)
Fixpoint characters (s : string) : list ascii :=
  match s with
  | EmptyString => []
  | String a s' => a :: characters s'
  end.

(** A chain name as the save output prints it: a word, that is, at least
    one character and no white space. *)
Definition isWord (name : string) : bool :=
  match characters name with
  | [] => false
  | letters => forallb (fun a => negb (Text.isSpace a)) letters
  end.

(** The word has ended: the line is over or white space follows. *)
Definition wordEnds (rest : string) : bool :=
  match rest with
  | EmptyString => true
  | String a _ => Text.isSpace a
  end.

(** [line] begins with [marker] and then the whole word [chain]. *)
Definition begins (marker chain line : string) : bool :=
  isWord chain
  && match Text.stripPrefix (marker +:+ chain) line with
     | Some rest => wordEnds rest
     | None => false
     end.

(** A line beginning with [:<chain>] is a forward declaration of [chain]. *)
Definition declares (chain line : string) : Prop :=
  begins ":" chain line = true.

(** A line beginning with [-A <chain>] is a rule line of [chain]. *)
Definition ruleOf (chain line : string) : Prop :=
  begins "-A " chain line = true.

#[global] Instance declares_dec chain line : Decision (declares chain line).
Proof. unfold declares. apply _. Defined.

#[global] Instance ruleOf_dec chain line : Decision (ruleOf chain line).
Proof. unfold ruleOf. apply _. Defined.

(** The fingerprint of a rule line: the one captured by the first match of
    the comment pattern; failing that the fixed sentinel when the legacy
    hook pattern matches; failing that the empty string. *)
Definition fingerprint (t : Table) (line : string) : string :=
  match hashCommentRegexp t line with
  | Some captured => captured
  | None =>
      match oldInsertRegexp t line with
      | true => "OLD INSERT RULE"
      | false => EmptyString
      end
  end.

(** The lines that follow the last forward declaration of [chain], if it
    is declared at all. *)
Fixpoint sinceLastDeclaration (chain : string) (lines : list string)
  : option (list string) :=
  match lines with
  | [] => None
  | line :: rest =>
      match sinceLastDeclaration chain rest with
      | Some after => Some after
      | None => if decide (declares chain line) then Some rest else None
      end
  end.

(** The fingerprints of the rule lines of [chain], in order. *)
Definition ruleFingerprints (t : Table) (chain : string) (lines : list string)
  : list string :=
  fingerprint t <$> filter (ruleOf chain) lines.

(** The fingerprint list of [chain]: a declaration establishes the empty
    list, every later rule line of the chain appends to it; a chain that is
    neither declared nor has a rule line has no entry. *)
Definition chainFingerprints (t : Table) (chain : string) (lines : list string)
  : option (list string) :=
  match sinceLastDeclaration chain lines with
  | Some after => Some (ruleFingerprints t chain after)
  | None =>
      match ruleFingerprints t chain lines with
      | [] => None
      | fingerprints => Some fingerprints
      end
  end.

End SaveFormat.

(** ** A concrete table and environment, for the examples *)

Module Fixture.

Definition noFeatures : Features :=
  {| SNATFullyRandom := false; MASQFullyRandom := false; RestoreSupportsLock := false |}.

(** The options of the hash extraction tests. *)
Definition options : TableOptions :=
  {| HistoricChainPrefixes := ["felix-"; "cali"];
     ExtraCleanupRegexPattern := "an-old-rule";
     BackendMode := "legacy";
     InsertMode := EmptyString;
     RefreshInterval := 0;
     PostWriteInterval := 0;
     LockTimeout := 0;
     LockProbeInterval := 0 |}.

(** The characters of [s] that may appear in a hash comment. *)
Fixpoint hashChars (s : string) : string :=
  match s with
  | EmptyString => EmptyString
  | String a s' => if Text.isHashChar a then String a (hashChars s') else hashChars s'
  end.

(** A stand-in digest: the index and what is left of the chain name and of
    the rendered action. *)
Definition sampleDigest : Chains.Digest := fun chainName i rule features =>
  "h" +:+ Text.decimal (N.of_nat i) +:+ "-"
  +:+ hashChars (chainName +:+ ToFragment (Chains.RuleAction rule) features).

(** A world in which nothing has happened yet. *)
Definition world : World :=
  {| clockReads := 0; saveRuns := 0; probes := 0; detected := noFeatures;
     slept := []; restoreLog := [] |}.

(** An environment whose clock advances [tick] per reading, whose save
    command prints [saved n] on its n-th run and whose restore command
    succeeds when [restores n] is [true]. *)
Definition env (tick : Z) (saved : nat -> list string) (restores : nat -> bool) : Env :=
  {| timeNow := fun n => Z.of_nat n * tick;
     saveCmd := fun n =>
       SaveRan {| scannedLines := saved n; scanErr := false |} false false;
     restoreCmd := fun n _ => restores n;
     probeFeatures := fun _ => noFeatures;
     lookPath := fun _ => true;
     digest := sampleDigest |}.

Definition quietEnv : Env := env Second (fun _ => []) (fun _ => true).

(** Whether a computation returned. *)
Definition isDone {A} (r : Outcome A * World) : bool :=
  match r with
  | (Done _, _) => true
  | (Panicked, _) => false
  end.

(** A table with nothing in it, returned for a computation that panicked. *)
Definition blank : Table :=
  {| Name := EmptyString; IPVersion := 4;
     chainToInsertedRules := ∅; dirtyInserts := ∅;
     chainNameToChain := ∅; dirtyChains := ∅;
     inSyncWithDataPlane := false; chainToDataplaneHashes := ∅;
     hashCommentPrefix := EmptyString;
     hashCommentRegexp := fun _ => None;
     ourChainsRegexp := fun _ => false;
     oldInsertRegexp := fun _ => false;
     nftablesMode := false;
     iptablesRestoreCmd := EmptyString; iptablesSaveCmd := EmptyString;
     insertMode := "insert";
     lastReadTime := 0; lastWriteTime := 0;
     initialPostWriteInterval := 0; postWriteInterval := 0; refreshInterval := 0;
     lockTimeout := 0; lockProbeInterval := 0 |}.

(** The table a computation returns. *)
Definition tableOf (r : Outcome Table * World) : Table :=
  match r with
  | (Done t, _) => t
  | (Panicked, _) => blank
  end.

(** The table and the delay that [Apply] returns. *)
Definition appliedOf (r : Outcome (Table * Z) * World) : Table * Z :=
  match r with
  | (Done a, _) => a
  | (Panicked, _) => (blank, 0)
  end.

(** The table and the error that [applyUpdates] returns. *)
Definition updatedOf (r : Outcome (Table * option error) * World)
  : Table * option error :=
  match r with
  | (Done a, _) => a
  | (Panicked, _) => (blank, None)
  end.

(** [NewTable("filter", 4, "cali:", ...)] of the hash extraction tests. *)
Definition filterTable : Table :=
  tableOf (NewTable quietEnv "filter" 4 "cali:" options world).

Definition comment (hash : string) : string :=
  "-m comment --comment " +:+ Text.quote +:+ "cali:" +:+ hash +:+ Text.quote.

(** The fixture of the test "should handle multiple chains", after the
    declarations of [INPUT] and [FORWARD]. *)
Definition saveOutput : Reader :=
  {| scannedLines := [
       ":INPUT ACCEPT [0:0]";
       ":FORWARD - [0:0]";
       "-A cali-abcd " +:+ comment "wUHhoiAYhphO9Mso" +:+ " -j cali-FORWARD";
       "-A cali-abcd " +:+ comment "abcdefghij1234-_" +:+ " -j cali-FORWARD";
       "-A FORWARD --src '1.2.3.4'";
       "-A FORWARD -j felix-FORWARD";
       "COMMIT";
       "-A FORWARD " +:+ comment "1234567890093213" +:+ " -j cali-FORWARD" ];
     scanErr := false |}.

End Fixture.

(** ** What a reload and an update decide, chain by chain *)

Module Verdict.

(** The table with its dirty sets replaced. *)
Definition withDirty (t : Table) (dInserts dChains : gset string) : Table :=
  setDirtyChains (setDirtyInserts t dInserts) dChains.

(** A chain with no update pending. *)
Definition clean (t : Table) (chainName : string) : Prop :=
  (chainName ∉ dirtyChains t) ∧ (chainName ∉ dirtyInserts t).

(** An insertion target whose read-back hashes [dpHashes] are not what our
    insertions and the foreign rules present would give. *)
Definition insertsOutOfSync (d : Chains.Digest) (t : Table) (features : Features)
  (dpHashes : option (list string)) (chainName : string) : Prop :=
  match dpHashes with
  | Some hashes =>
      hashes ≠ fst (expectedHashesForInsertChain d t features chainName
                      (numEmptyStrings dpHashes))
  | None => elems (chainToInsertedRules t !! chainName) ≠ []
  end.

End Verdict.

(** ** What an operation leaves alone in the world *)

Module Frame.

(** Only the save command has run (and the process may have slept). *)
Definition sameButSaves (w w' : World) : Prop :=
  clockReads w' = clockReads w ∧ probes w' = probes w ∧ detected w' = detected w
  ∧ restoreLog w' = restoreLog w ∧ (saveRuns w ≤ saveRuns w')%nat.

(** The restore command has only been given more inputs. *)
Definition logGrows (w w' : World) : Prop :=
  ∃ more, restoreLog w' = restoreLog w ++ more.

End Frame.

(** ** Scenarios for the examples *)

Module Scenario.
Import Fixture.

(** The kernel chains of the filter table, all empty. *)
Definition emptyFilter : list string :=
  [":INPUT - [0:0]"; ":FORWARD - [0:0]"; ":OUTPUT - [0:0]"].

(** A fresh filter table, then [setup]. *)
Definition started (e : Env) (opts : TableOptions) (setup : Table → Table)
  : Table * World :=
  let r := NewTable e "filter" 4 "cali:" opts world in
  (setup (tableOf r), snd r).

(** One more [Apply]. *)
Definition applied (e : Env) (s : Table * World) : Table * World :=
  let r := Apply e (fst s) (snd s) in
  (fst (appliedOf r), snd r).

Definition acceptTcp : Chains.Rule :=
  {| Chains.Match := ["-p tcp"]; Chains.RuleAction := AcceptAction |}.

Definition dropUdp : Chains.Rule :=
  {| Chains.Match := ["-p udp"]; Chains.RuleAction := DropAction |}.

Definition hook : Chains.Rule :=
  {| Chains.Match := ["-m conntrack"]; Chains.RuleAction := JumpAction "cali-FORWARD" |}.

(** [FORWARD] is hooked by one inserted rule; after the first write another
    tool puts a rule of its own on top of it. *)
Definition hookedEnv : Env :=
  env Second
    (fun n =>
       match n with
       | O => emptyFilter
       | S _ =>
           emptyFilter
           ++ ["-A FORWARD -j DOCKER";
               "-A FORWARD " +:+ comment "h0-FORWARD--jumpcali-FORWARD"
               +:+ " -m conntrack --jump cali-FORWARD"]
       end)
    (fun _ => true).

(** The table is made at 0s and [FORWARD] is hooked. *)
Definition hooking : Table * World :=
  started hookedEnv options (fun t => SetRuleInsertions t "FORWARD" [hook]).

(** The first [Apply], at 1s. *)
Definition hookingApply : Outcome (Table * Z) * World :=
  Apply hookedEnv (fst hooking) (snd hooking).

Definition hooked : Table * World := applied hookedEnv hooking.

End Scenario.

(** ** The restore input, pass by pass *)

Module Lines.

(** nftables mode finds the chain already correct and drops it from the
    dirty set. *)
Definition alreadyCorrect (env : Env) (t : Table) (features : Features)
  (chainName : string) : bool :=
  nftablesMode t
  && (0 <? len (chainToDataplaneHashes t !! chainName))%nat
  && DeepEqual
       (Chains.RuleHashesPtr (digest env) (chainNameToChain t !! chainName) features)
       (chainToDataplaneHashes t !! chainName).

(** The chain gets a forward reference in the first pass. *)
Definition needsFlush (env : Env) (t : Table) (features : Features)
  (chainName : string) : bool :=
  if nftablesMode t then negb (alreadyCorrect env t features chainName)
  else negb (bool_decide (is_Some (chainNameToChain t !! chainName)))
       || negb (bool_decide (is_Some (chainToDataplaneHashes t !! chainName))).

Definition forwardReferences (env : Env) (t : Table) (features : Features)
  (chainName : string) : list Builder.RestoreLine :=
  if needsFlush env t features chainName
  then [Builder.ForwardReference chainName] else [].

Definition chainUpdates (env : Env) (t : Table) (features : Features)
  (chainName : string) : list Builder.RestoreLine :=
  Builder.RuleLine <$> (chainUpdateLines env t features chainName).

(** The hashes expected of an insertion target, given what the cache holds. *)
Definition newChainHashes (env : Env) (t : Table) (features : Features)
  (chainName : string) : list string :=
  fst (expectedHashesForInsertChain (digest env) t features chainName
         (numEmptyStrings (chainToDataplaneHashes t !! chainName))).

Definition insertsInSync (env : Env) (t : Table) (features : Features)
  (chainName : string) : bool :=
  DeepEqual (Some (newChainHashes env t features chainName))
    (chainToDataplaneHashes t !! chainName).

Definition insertUpdates (env : Env) (t : Table) (features : Features)
  (chainName : string) : list Builder.RestoreLine :=
  if insertsInSync env t features chainName then []
  else Builder.RuleLine
       <$> (insertUpdateLines t features chainName
              (snd (expectedHashesForInsertChain (digest env) t features chainName
                      (numEmptyStrings (chainToDataplaneHashes t !! chainName))))).

Definition deletionFlushes (t : Table) (chainName : string)
  : list Builder.RestoreLine :=
  if bool_decide (is_Some (chainNameToChain t !! chainName)) then []
  else [Builder.ForwardReference chainName].

Definition deletions (t : Table) (chainName : string) : list Builder.RestoreLine :=
  if bool_decide (is_Some (chainNameToChain t !! chainName)) then []
  else [Builder.RuleLine (deleteChain chainName)].

(** A transaction on [table] made of [body]; nothing if [body] is empty. *)
Definition transaction (table : string) (body : list Builder.RestoreLine)
  : list Builder.RestoreLine :=
  match body with
  | [] => []
  | _ => Builder.TableOpener table :: body ++ [Builder.Commit]
  end.

(** The dirty chains that the first pass leaves in the set. *)
Definition stillDirty (env : Env) (t : Table) (features : Features) : gset string :=
  filter (λ chainName, alreadyCorrect env t features chainName = false) (dirtyChains t).

(** The whole restore input of one [applyUpdates]. *)
Definition restoreInput (env : Env) (t : Table) (features : Features)
  : list Builder.RestoreLine :=
  let dirty := elements (dirtyChains t) in
  let remaining := elements (stillDirty env t features) in
  let updates :=
    (dirty ≫= forwardReferences env t features)
    ++ (remaining ≫= chainUpdates env t features)
    ++ (elements (dirtyInserts t) ≫= insertUpdates env t features) in
  if nftablesMode t then
    transaction (Name t) updates
    ++ transaction (Name t)
         ((remaining ≫= deletionFlushes t) ++ (remaining ≫= deletions t))
  else transaction (Name t) (updates ++ (remaining ≫= deletions t)).

(** The entry that one [applyUpdates] leaves in [newHashes] for a chain. *)
Definition newHashesOf (env : Env) (t : Table) (features : Features)
  (chainName : string) : option (option (list string)) :=
  if bool_decide (chainName ∈ stillDirty env t features)
     && negb (bool_decide (is_Some (chainNameToChain t !! chainName)))
  then Some None
  else if bool_decide (chainName ∈ dirtyInserts t)
          && negb (insertsInSync env t features chainName)
  then Some (Some (newChainHashes env t features chainName))
  else if bool_decide (chainName ∈ stillDirty env t features)
  then (λ chain, Some (Chains.RuleHashes (digest env) chain features))
       <$> (chainNameToChain t !! chainName)
  else None.

End Lines.

Module Scenario2.
Import Fixture Scenario.

Definition nftOptions : TableOptions :=
  {| HistoricChainPrefixes := ["felix-"; "cali"];
     ExtraCleanupRegexPattern := EmptyString;
     BackendMode := "nft";
     InsertMode := EmptyString;
     RefreshInterval := 0;
     PostWriteInterval := 0;
     LockTimeout := 0;
     LockProbeInterval := 0 |}.

Definition chainA : Chains.Chain :=
  {| Chains.Name := "cali-a"; Chains.Rules := [acceptTcp] |}.

Definition chainB : Chains.Chain :=
  {| Chains.Name := "cali-b"; Chains.Rules := [dropUdp] |}.

(** The dataplane already holds [cali-a] as desired; the restore command
    fails. *)
Definition failingEnv : Env :=
  env Second
    (fun _ =>
       emptyFilter
       ++ [":cali-a - [0:0]";
           "-A cali-a " +:+ comment "h0-cali-a--jumpACCEPT" +:+ " -p tcp --jump ACCEPT"])
    (fun _ => false).

(** nftables mode, [cali-a] and [cali-b] queued, the dataplane just read. *)
Definition twoChains : Table * World :=
  let s := started failingEnv nftOptions
             (fun t => UpdateChain (UpdateChain t chainA) chainB) in
  let r := loadDataplaneState failingEnv (fst s) (snd s) in
  (tableOf r, snd r).

(** [applyUpdates] on it. *)
Definition failed : Outcome (Table * option error) * World :=
  applyUpdates failingEnv (fst twoChains) (snd twoChains).

(** The hooked table once [SetRuleInsertions] is called again with the
    rules it already has. *)
Definition rehooked : Table * World :=
  (SetRuleInsertions (fst hooked) "FORWARD" [hook], snd hooked).

End Scenario2.

(** ** The two timers, as the design describes them *)

Module Schedule.

(** What is left of the refresh interval, when one is configured. *)
Definition refreshRemaining (t : Table) (nowTime : Z) : option Z :=
  if 0 <? refreshInterval t
  then Some (wrap64 (refreshInterval t - timeSub nowTime (lastReadTime t)))
  else None.

(** What is left of the post-write interval, when it is below one hour. *)
Definition postWriteRemaining (t : Table) (nowTime : Z) : option Z :=
  if postWriteInterval t <? Hour
  then Some (timeSub (timeAdd (lastWriteTime t) (postWriteInterval t)) nowTime)
  else None.

(** The minimum of the delays that are there. *)
Definition earliest (a b : option Z) : option Z :=
  match a, b with
  | Some x, Some y => Some (Z.min x y)
  | Some x, None => Some x
  | None, Some y => Some y
  | None, None => None
  end.

(** A delay that is already overdue becomes one millisecond. *)
Definition clamp (d : Z) : Z := if d <=? 0 then 1 * Millisecond else d.

(** The delay to return: the earliest of the two, clamped; zero (no
    rescheduling) when neither timer is in use. *)
Definition rescheduleAfter (t : Table) (nowTime : Z) : Z :=
  match earliest (refreshRemaining t nowTime) (postWriteRemaining t nowTime) with
  | Some d => clamp d
  | None => 0
  end.

(** The post-write interval after [k] doublings. *)
Definition doubled (interval : Z) (k : nat) : Z :=
  Nat.iter k (λ d, wrap64 (d * 2)) interval.

(** The interval is non-zero, below one hour and has elapsed since the last
    write. *)
Definition elapsed (lastWrite nowTime interval : Z) : Prop :=
  interval ≠ 0 ∧ interval < Hour ∧ lastWrite + interval ≤ nowTime.

End Schedule.

Module Scenario3.
Import Fixture Scenario.

(** A refresh interval of ten seconds and no post-write recheck. *)
Definition refreshOptions : TableOptions :=
  {| HistoricChainPrefixes := ["felix-"; "cali"];
     ExtraCleanupRegexPattern := EmptyString;
     BackendMode := "legacy";
     InsertMode := EmptyString;
     RefreshInterval := 10 * Second;
     PostWriteInterval := 2 * Hour;
     LockTimeout := 0;
     LockProbeInterval := 0 |}.

(** The table is made at 0s; the first [Apply] starts at 1s and reads the
    dataplane at 2s; the second starts at 12s, ten seconds after the read. *)
Definition refreshEnv : Env :=
  {| timeNow := fun n =>
       match n with
       | 0%nat => 0
       | 1%nat => 1 * Second
       | 2%nat => 2 * Second
       | _ => 12 * Second
       end;
     saveCmd := fun _ =>
       SaveRan {| scannedLines := emptyFilter; scanErr := false |} false false;
     restoreCmd := fun _ _ => true;
     probeFeatures := fun _ => noFeatures;
     lookPath := fun _ => true;
     digest := sampleDigest |}.

Definition fresh : Table * World := started refreshEnv refreshOptions (fun t => t).

Definition appliedOnce : Table * World := applied refreshEnv fresh.

End Scenario3.

Module Scenario4.
Import Fixture Scenario.

(** A refresh interval of ten seconds and the default post-write recheck. *)
Definition steppedOptions : TableOptions :=
  {| HistoricChainPrefixes := ["felix-"; "cali"];
     ExtraCleanupRegexPattern := EmptyString;
     BackendMode := "legacy";
     InsertMode := EmptyString;
     RefreshInterval := 10 * Second;
     PostWriteInterval := 0;
     LockTimeout := 0;
     LockProbeInterval := 0 |}.

(** The table is made at 0s and [Apply] starts at 100s; the clock is then
    set back, and every later reading is 0s again. *)
Definition steppedEnv : Env :=
  {| timeNow := fun n =>
       match n with
       | 1%nat => 100 * Second
       | _ => 0
       end;
     saveCmd := fun _ =>
       SaveRan {| scannedLines := emptyFilter; scanErr := false |} false false;
     restoreCmd := fun _ _ => true;
     probeFeatures := fun _ => noFeatures;
     lookPath := fun _ => true;
     digest := sampleDigest |}.

Definition stepping : Table * World :=
  started steppedEnv steppedOptions (fun t => SetRuleInsertions t "FORWARD" [hook]).

Abbreviation steppedApply := (Apply steppedEnv (fst stepping) (snd stepping)).

End Scenario4.

(** * Properties *)

(** ** Reading the save output *)

Lemma takeWhile_prefix (p : ascii → bool) (s : string) :
  ∃ rest, s = Text.takeWhile p s +:+ rest.
Proof.
  induction s as [|a s [rest IH]]; [by exists EmptyString|].
  cbn. destruct (p a).
  - exists rest. change (String a s = String a (Text.takeWhile p s +:+ rest)).
    by rewrite <- IH.
  - by exists (String a s).
Qed.

Lemma nonSpaceRun_prefix (s run : string) :
  Regexp.nonSpaceRun s = Some run → run ≠ EmptyString ∧ ∃ rest, s = run +:+ rest.
Proof.
  unfold Regexp.nonSpaceRun. intros H.
  destruct (takeWhile_prefix (λ a, negb (Text.isSpace a)) s) as [rest Hrest].
  destruct (Text.takeWhile _ s) as [|a run'] eqn:Hrun; [done|].
  injection H as <-. split; [done|]. by exists rest.
Qed.

Lemma stripPrefix_Some (p s rest : string) :
  Text.stripPrefix p s = Some rest → s = p +:+ rest.
Proof.
  revert s. induction p as [|a p IH]; intros s; cbn [Text.stripPrefix].
  - by intros [= ->].
  - destruct s as [|b s]; [done|].
    destruct (Ascii.eqb_spec a b) as [<-|]; [|done].
    intros H. cbn. by rewrite (IH _ H).
Qed.

Lemma stripPrefix_app (p q s : string) :
  Text.stripPrefix (p +:+ q) s =
  match Text.stripPrefix p s with
  | Some rest => Text.stripPrefix q rest
  | None => None
  end.
Proof.
  revert s. induction p as [|a p IH]; intros s; [done|].
  change (String a p +:+ q) with (String a (p +:+ q)).
  cbn [Text.stripPrefix]. destruct s as [|b s]; [done|].
  by destruct (Ascii.eqb a b).
Qed.

(** A greedy run is the one word the text begins with. *)
Lemma takeWhile_word (s word : string) :
  SaveFormat.isWord word = true →
  (Text.takeWhile (λ a, negb (Text.isSpace a)) s = word
   ↔ ∃ rest, Text.stripPrefix word s = Some rest ∧ SaveFormat.wordEnds rest = true).
Proof.
  revert s. induction word as [|a word IH]; intros s; [done|].
  unfold SaveFormat.isWord. cbn [SaveFormat.characters forallb].
  intros [Ha Hword]%andb_true_iff.
  destruct s as [|b s]; cbn [Text.takeWhile Text.stripPrefix].
  { split; [done|]. by intros (rest & ? & _). }
  destruct (Ascii.eqb_spec a b) as [<-|Hab].
  - rewrite Ha. destruct word as [|a' word].
    + cbn [Text.stripPrefix]. split.
      * intros [= Hrun]. exists s. split; [done|].
        destruct s as [|c s]; [done|]. cbn in Hrun |- *.
        destruct (Text.isSpace c); [done|discriminate Hrun].
      * intros (rest & [= <-] & Hend). f_equal.
        destruct s as [|c s]; [done|]. cbn in Hend |- *. by rewrite Hend.
    + assert (SaveFormat.isWord (String a' word) = true) as Hw by exact Hword.
      specialize (IH s Hw). split.
      * intros [= Hrun]. by apply IH.
      * intros Hrest. f_equal. by apply IH.
  - split.
    + destruct (negb (Text.isSpace b)); [|done]. intros [= ? _]. done.
    + by intros (rest & ? & _).
Qed.

Lemma takeWhile_isWord (s : string) :
  Text.takeWhile (λ a, negb (Text.isSpace a)) s ≠ EmptyString →
  SaveFormat.isWord (Text.takeWhile (λ a, negb (Text.isSpace a)) s) = true.
Proof.
  destruct s as [|a s]; [done|]. cbn [Text.takeWhile].
  destruct (negb (Text.isSpace a)) eqn:Ha; [|done]. intros _.
  unfold SaveFormat.isWord. cbn [SaveFormat.characters forallb]. rewrite Ha. cbn [andb].
  induction s as [|b s IH]; [done|]. cbn [Text.takeWhile].
  destruct (negb (Text.isSpace b)) eqn:Hb; [|done].
  cbn [SaveFormat.characters forallb]. by rewrite Hb.
Qed.

(** The pattern [marker(\S+)], anchored at the start of the line, captures
    [chain] exactly when the line begins with [marker] and the word
    [chain]. *)
Lemma nonSpaceRun_begins (marker chain line : string) :
  match Text.stripPrefix marker line with
  | Some rest => Regexp.nonSpaceRun rest
  | None => None
  end = Some chain
  ↔ SaveFormat.begins marker chain line = true.
Proof.
  unfold SaveFormat.begins. rewrite stripPrefix_app.
  destruct (Text.stripPrefix marker line) as [text|].
  2:{ rewrite andb_false_r. done. }
  unfold Regexp.nonSpaceRun. split.
  - intros Hrun.
    assert (Text.takeWhile (λ a, negb (Text.isSpace a)) text = chain) as Htake.
    { destruct (Text.takeWhile _ text); [done|]. by injection Hrun. }
    assert (SaveFormat.isWord chain = true) as Hword.
    { rewrite <- Htake. apply takeWhile_isWord. intros Hempty.
      by rewrite Hempty in Hrun. }
    rewrite Hword. cbn [andb].
    apply (takeWhile_word text chain Hword) in Htake as (rest & -> & Hend).
    exact Hend.
  - intros [Hword Hrest]%andb_true_iff.
    destruct (Text.stripPrefix chain text) as [rest|] eqn:Hstrip; [|done].
    assert (Text.takeWhile (λ a, negb (Text.isSpace a)) text = chain) as ->.
    { apply (takeWhile_word text chain Hword). by exists rest. }
    destruct chain; [done|done].
Qed.

Lemma declares_chainCreateRegexp (chain line : string) :
  SaveFormat.declares chain line ↔ Regexp.chainCreateRegexp line = Some chain.
Proof. symmetry. apply nonSpaceRun_begins. Qed.

Lemma ruleOf_appendRegexp (chain line : string) :
  SaveFormat.ruleOf chain line ↔ Regexp.appendRegexp line = Some chain.
Proof. symmetry. apply nonSpaceRun_begins. Qed.

Lemma chainCreate_not_append (line chain : string) :
  Regexp.chainCreateRegexp line = Some chain → Regexp.appendRegexp line = None.
Proof.
  unfold Regexp.chainCreateRegexp, Regexp.appendRegexp.
  destruct line as [|a line]; [done|].
  cbn [Text.stripPrefix].
  destruct (Ascii.eqb_spec ":" a) as [<-|]; [|done].
  intros _. reflexivity.
Qed.

Lemma ruleFingerprints_cons (t : Table) (chain line : string) (lines : list string) :
  SaveFormat.ruleFingerprints t chain (line :: lines) =
  (if decide (SaveFormat.ruleOf chain line) then [SaveFormat.fingerprint t line] else [])
  ++ SaveFormat.ruleFingerprints t chain lines.
Proof.
  unfold SaveFormat.ruleFingerprints. rewrite filter_cons.
  by destruct (decide (SaveFormat.ruleOf chain line)).
Qed.

(** The scanner loop, started from any map [hashes]. *)
Lemma readLines_lookup (t : Table) (chain : string) (lines : list string) :
  ∀ hashes : gmap string (list string),
    foldl (readLine t) hashes lines !! chain =
    match SaveFormat.sinceLastDeclaration chain lines with
    | Some after => Some (SaveFormat.ruleFingerprints t chain after)
    | None =>
        match SaveFormat.ruleFingerprints t chain lines with
        | [] => hashes !! chain
        | fingerprints => Some (elems (hashes !! chain) ++ fingerprints)
        end
    end.
Proof.
  induction lines as [|line lines IH]; intros hashes; [done|].
  cbn [foldl SaveFormat.sinceLastDeclaration]. rewrite IH. clear IH.
  destruct (SaveFormat.sinceLastDeclaration chain lines) as [after|]; [done|].
  rewrite ruleFingerprints_cons.
  destruct (decide (SaveFormat.declares chain line)) as [Hdecl|Hdecl].
  - apply declares_chainCreateRegexp in Hdecl as Hcreate.
    unfold readLine. rewrite Hcreate, lookup_insert_eq.
    by destruct (SaveFormat.ruleFingerprints t chain lines).
  - rewrite declares_chainCreateRegexp in Hdecl.
    destruct (decide (SaveFormat.ruleOf chain line)) as [Hrule|Hrule];
      rewrite ruleOf_appendRegexp in Hrule;
      unfold readLine;
      destruct (Regexp.chainCreateRegexp line) as [declared|] eqn:Hcreate.
    + rewrite (chainCreate_not_append _ _ Hcreate) in Hrule. done.
    + rewrite Hrule, !lookup_insert_eq.
      change (SaveFormat.fingerprint t line) with (lineHash t line). cbn.
      destruct (SaveFormat.ruleFingerprints t chain lines); [done|].
      by rewrite <- app_assoc.
    + rewrite lookup_insert_ne; [done|]. intros ->. by apply Hdecl.
    + destruct (Regexp.appendRegexp line) as [target|] eqn:Happend; [|done].
      rewrite lookup_insert_ne; [done|]. intros ->. by apply Hrule.
Qed.

(** C1.  Whenever the scanner reaches the end of the save output,
    [readHashesFrom] returns a map that holds, for each chain, the ordered
    fingerprints of the format: a [:<chain>] line establishes the empty
    list, an [-A <chain>] line appends the fingerprint captured by the first
    match of the comment pattern, else the non-empty sentinel
    ["OLD INSERT RULE"] when the legacy hook pattern matches, else the empty
    string; every other line is ignored. *)
Theorem readHashesFrom_chainFingerprints (t : Table) (r : Reader) :
  scanErr r = false →
  ∃ hashes,
    readHashesFrom t r = Some hashes
    ∧ ∀ chain, hashes !! chain = SaveFormat.chainFingerprints t chain (scannedLines r).
Proof.
  intros Hscan. unfold readHashesFrom. rewrite Hscan.
  eexists; split; [done|]. intros chain.
  rewrite readLines_lookup. unfold SaveFormat.chainFingerprints.
  destruct (SaveFormat.sinceLastDeclaration chain (scannedLines r)); [done|].
  rewrite lookup_empty. cbn.
  by destruct (SaveFormat.ruleFingerprints t chain (scannedLines r)).
Qed.

Lemma readHashesFrom_chainFingerprints_witness :
  ∃ hashes,
    readHashesFrom Fixture.filterTable Fixture.saveOutput = Some hashes
    ∧ hashes !! "FORWARD" = Some [EmptyString; "OLD INSERT RULE"; "1234567890093213"]
    ∧ hashes !! "cali-abcd" = Some ["wUHhoiAYhphO9Mso"; "abcdefghij1234-_"]
    ∧ hashes !! "INPUT" = Some []
    ∧ hashes !! "OUTPUT" = None.
Proof.
  destruct (readHashesFrom_chainFingerprints Fixture.filterTable Fixture.saveOutput
              eq_refl) as (hashes & Hread & Hlookup).
  exists hashes. split; [done|]. rewrite !Hlookup. by vm_compute.
Defined.

(** ** Expected hashes of an insertion target *)

Lemma storeHashes_spec (ourHashes : list string) :
  ∀ (allHashes : list string) (offset : nat),
    (offset + length ourHashes ≤ length allHashes)%nat →
    storeHashes allHashes offset ourHashes =
    take offset allHashes ++ ourHashes ++ drop (offset + length ourHashes) allHashes.
Proof.
  induction ourHashes as [|hash rest IH]; intros allHashes offset Hlen;
    cbn [storeHashes length] in *.
  - rewrite Nat.add_0_r. cbn [app]. by rewrite take_drop.
  - rewrite IH by (rewrite length_insert; lia).
    rewrite (take_S_r _ offset hash) by (apply list_lookup_insert_eq; lia).
    rewrite take_insert_ge by lia. rewrite drop_insert_lt by lia.
    rewrite <- app_assoc. cbn [app].
    by replace (S offset + length rest)%nat with (offset + S (length rest))%nat by lia.
Qed.

Lemma RuleHashes_length (d : Chains.Digest) (c : Chains.Chain) (features : Features) :
  length (Chains.RuleHashes d c features) = length (Chains.Rules c).
Proof. apply length_imap. Qed.

(** Insert mode: our hashes first, then one empty string per foreign rule;
    append mode: the other way round. *)
Lemma expectedHashesForInsertChain_spec (d : Chains.Digest) (t : Table)
  (features : Features) (chainName : string) (n : nat) :
  let ours := calculateRuleInsertHashes d chainName
                (elems (chainToInsertedRules t !! chainName)) features in
  expectedHashesForInsertChain d t features chainName n =
  (if decide (insertMode t = "append")
   then replicate n EmptyString ++ ours
   else ours ++ replicate n EmptyString, ours).
Proof.
  intros ours. unfold expectedHashesForInsertChain. fold ours. f_equal.
  assert (length ours = length (elems (chainToInsertedRules t !! chainName))) as Hlen
    by apply RuleHashes_length.
  rewrite <- Hlen.
  destruct (decide (insertMode t = "append")).
  - rewrite storeHashes_spec by (rewrite length_replicate; lia).
    rewrite take_replicate, drop_replicate.
    replace (n `min` (length ours + n))%nat with n by lia.
    replace (length ours + n - (n + length ours))%nat with 0%nat by lia.
    cbn. by rewrite app_nil_r.
  - rewrite storeHashes_spec by (rewrite length_replicate; lia).
    rewrite take_replicate, drop_replicate.
    by replace (length ours + n - (0 + length ours))%nat with n by lia.
Qed.

(** ** The dirty sets after a reload *)

Lemma withDirty_id (t : Table) :
  Verdict.withDirty t (dirtyInserts t) (dirtyChains t) = t.
Proof. by destruct t. Qed.

Lemma numEmptyStrings_foldl (l : list string) (k : nat) :
  foldl (λ count s, if decide (s = EmptyString) then S count else count) k l =
  (k + length (filter (λ s, s = EmptyString) l))%nat.
Proof.
  revert k. induction l as [|s l IH]; intros k; cbn [foldl]; [cbn; lia|].
  rewrite IH, filter_cons. destruct (decide (s = EmptyString)); cbn [length]; lia.
Qed.

Lemma numEmptyStrings_count (l : list string) :
  numEmptyStrings (Some l) = length (filter (λ s, s = EmptyString) l).
Proof. unfold numEmptyStrings. cbn. by rewrite numEmptyStrings_foldl. Qed.

Lemma hasNonEmpty_spec (l : list string) :
  hasNonEmpty (Some l) = true ↔ l ≠ replicate (numEmptyStrings (Some l)) EmptyString.
Proof.
  rewrite numEmptyStrings_count. unfold hasNonEmpty. cbn [elems].
  induction l as [|s l IH]; [done|].
  cbn [existsb]. rewrite filter_cons.
  destruct (decide (s = EmptyString)) as [->|Hs].
  - rewrite bool_decide_eq_true_2 by done. cbn [negb orb length replicate].
    rewrite IH. split; [congruence|]. intros H1 H2. apply H1. by f_equal.
  - rewrite bool_decide_eq_false_2 by done. cbn [negb orb]. split; [|done].
    intros _ Heq.
    destruct (length (filter (λ s0, s0 = EmptyString) l)); cbn in Heq; [done|].
    congruence.
Qed.

(** The test made on a tracked chain that is not ours is [insertsOutOfSync]. *)
Lemma insertsOutOfSync_check (d : Chains.Digest) (t : Table) (features : Features)
  (dpHashes : option (list string)) (chainName : string) :
  (if (len (chainToInsertedRules t !! chainName) =? 0)%nat
   then hasNonEmpty dpHashes
   else negb (DeepEqual dpHashes
                (Some (fst (expectedHashesForInsertChain d t features chainName
                              (numEmptyStrings dpHashes)))))) = true
  ↔ Verdict.insertsOutOfSync d t features dpHashes chainName.
Proof.
  unfold Verdict.insertsOutOfSync, DeepEqual.
  rewrite expectedHashesForInsertChain_spec. cbn [fst].
  unfold calculateRuleInsertHashes, Chains.RuleHashes. cbn [Chains.Rules Chains.Name].
  destruct (chainToInsertedRules t !! chainName) as [[|rule rules]|]; cbn [len elems length imap].
  - rewrite Nat.eqb_refl. destruct dpHashes as [hashes|]; [|done].
    rewrite hasNonEmpty_spec. by destruct (decide _); rewrite ?app_nil_r.
  - cbn [Nat.eqb]. rewrite negb_true_iff, bool_decide_eq_false.
    destruct dpHashes as [hashes|]; [|done]. split; congruence.
  - rewrite Nat.eqb_refl. destruct dpHashes as [hashes|]; [|done].
    rewrite hasNonEmpty_spec. by destruct (decide _); rewrite ?app_nil_r.
Qed.

Lemma if_merge {A} (a b c : bool) (x y : A) :
  (if a then (if b then x else y) else (if c then x else y)) =
  (if (if a then b else c) then x else y).
Proof. by destruct a. Qed.

Lemma markDirtyInsert_withDirty (t : Table) (c : string) :
  markDirtyInsert t c = Verdict.withDirty t ({[c]} ∪ dirtyInserts t) (dirtyChains t).
Proof. by destruct t. Qed.

Lemma markDirtyChain_withDirty (t : Table) (c : string) :
  markDirtyChain t c = Verdict.withDirty t (dirtyInserts t) ({[c]} ∪ dirtyChains t).
Proof. by destruct t. Qed.

Lemma clean_dirty_test (t : Table) (c : string) :
  bool_decide (c ∈ dirtyChains t) || bool_decide (c ∈ dirtyInserts t) = false
  ↔ Verdict.clean t c.
Proof.
  unfold Verdict.clean. rewrite orb_false_iff, !bool_decide_eq_false. done.
Qed.

(** One turn of the first loop of [loadDataplaneState]. *)
Lemma checkExpected_step (env : Env) (D : gmap string (list string))
  (f : Features) (t : Table) (c : string) (e : list string) :
  ∃ dI dC,
    checkExpected env D f t (c, e) = Verdict.withDirty t dI dC
    ∧ (∀ x, x ∈ dI ↔ x ∈ dirtyInserts t
            ∨ (x = c ∧ Verdict.clean t c ∧ ourChainsRegexp t c = false
               ∧ Verdict.insertsOutOfSync (digest env) t f (D !! c) c))
    ∧ (∀ x, x ∈ dC ↔ x ∈ dirtyChains t
            ∨ (x = c ∧ Verdict.clean t c ∧ ourChainsRegexp t c = true
               ∧ D !! c ≠ Some e)).
Proof.
  unfold checkExpected.
  destruct (bool_decide (c ∈ dirtyChains t) || bool_decide (c ∈ dirtyInserts t))
    eqn:Hdirty.
  { exists (dirtyInserts t), (dirtyChains t). rewrite withDirty_id.
    assert (¬ Verdict.clean t c) by (rewrite <- clean_dirty_test; congruence).
    naive_solver. }
  apply clean_dirty_test in Hdirty.
  destruct (ourChainsRegexp t c) eqn:Hours; cbn [negb].
  - unfold DeepEqual. destruct (decide (D !! c = Some e)) as [Heq|Hne].
    + rewrite bool_decide_eq_true_2 by done. cbn [negb].
      exists (dirtyInserts t), (dirtyChains t). rewrite withDirty_id. naive_solver.
    + rewrite bool_decide_eq_false_2 by done. cbn [negb].
      rewrite markDirtyChain_withDirty. do 2 eexists. split; [done|].
      split; [naive_solver|]. intros x. rewrite elem_of_union, elem_of_singleton.
      naive_solver.
  - rewrite if_merge.
    pose proof (insertsOutOfSync_check (digest env) t f (D !! c) c) as Hcheck.
    destruct (if (len (chainToInsertedRules t !! c) =? 0)%nat then _ else _).
    + rewrite markDirtyInsert_withDirty. do 2 eexists. split; [done|].
      split; [|naive_solver]. intros x. rewrite elem_of_union, elem_of_singleton.
      naive_solver.
    + exists (dirtyInserts t), (dirtyChains t). rewrite withDirty_id.
      assert (¬ Verdict.insertsOutOfSync (digest env) t f (D !! c) c)
        by (rewrite <- Hcheck; congruence).
      naive_solver.
Qed.

Lemma checkExpected_fold (env : Env) (D : gmap string (list string))
  (f : Features) (l : list (string * list string)) :
  ∀ t, NoDup l.*1 →
  ∃ dI dC,
    foldl (checkExpected env D f) t l = Verdict.withDirty t dI dC
    ∧ (∀ x, x ∈ dI ↔ x ∈ dirtyInserts t
            ∨ (∃ e, (x, e) ∈ l ∧ Verdict.clean t x ∧ ourChainsRegexp t x = false
                    ∧ Verdict.insertsOutOfSync (digest env) t f (D !! x) x))
    ∧ (∀ x, x ∈ dC ↔ x ∈ dirtyChains t
            ∨ (∃ e, (x, e) ∈ l ∧ Verdict.clean t x ∧ ourChainsRegexp t x = true
                    ∧ D !! x ≠ Some e)).
Proof.
  induction l as [|[c e] l IH]; intros t Hnodup.
  { exists (dirtyInserts t), (dirtyChains t). cbn [foldl]. rewrite withDirty_id.
    split; [done|]. split; intros x; rewrite ?elem_of_nil; set_solver. }
  apply NoDup_cons in Hnodup as [Hc Hnodup]. cbn [foldl].
  destruct (checkExpected_step env D f t c e) as (dI1 & dC1 & -> & HdI1 & HdC1).
  destruct (IH (Verdict.withDirty t dI1 dC1) Hnodup) as (dI & dC & -> & HdI & HdC).
  exists dI, dC. split; [done|].
  assert (∀ x e', (x, e') ∈ l → x ≠ c) as Hfresh.
  { intros x e' Hin ->. apply Hc. apply list_elem_of_fmap. by exists (c, e'). }
  assert (∀ x, x ≠ c →
            Verdict.clean (Verdict.withDirty t dI1 dC1) x ↔ Verdict.clean t x) as Hclean.
  { intros x Hx. unfold Verdict.clean. cbn. rewrite HdI1, HdC1. naive_solver. }
  split; intros x; [rewrite HdI, HdI1|rewrite HdC, HdC1]; cbn;
    setoid_rewrite elem_of_cons; split.
  - intros [[?|?]|(e' & Hin & Hcl & ?)]; [by left|right; naive_solver|].
    right. exists e'. apply Hclean in Hcl; [|by eapply Hfresh]. naive_solver.
  - intros [?|(e' & [[= -> ->]|Hin] & Hcl & ?)]; [by left; left|by left; right|].
    right. exists e'. split; [done|]. split; [|done].
    apply Hclean; [by eapply Hfresh|done].
  - intros [[?|?]|(e' & Hin & Hcl & ?)]; [by left|right; naive_solver|].
    right. exists e'. apply Hclean in Hcl; [|by eapply Hfresh]. naive_solver.
  - intros [?|(e' & [[= -> ->]|Hin] & Hcl & ?)]; [by left; left|by left; right|].
    right. exists e'. split; [done|]. split; [|done].
    apply Hclean; [by eapply Hfresh|done].
Qed.

(** One turn of the second loop. *)
Lemma checkUnexpected_step (t : Table) (c : string) (hashes : list string) :
  ∃ dI dC,
    checkUnexpected t (c, hashes) = Verdict.withDirty t dI dC
    ∧ (∀ x, x ∈ dI ↔ x ∈ dirtyInserts t
            ∨ (x = c ∧ Verdict.clean t c ∧ chainToDataplaneHashes t !! c = None
               ∧ ourChainsRegexp t c = false ∧ hasNonEmpty (Some hashes) = true))
    ∧ (∀ x, x ∈ dC ↔ x ∈ dirtyChains t
            ∨ (x = c ∧ Verdict.clean t c ∧ chainToDataplaneHashes t !! c = None
               ∧ ourChainsRegexp t c = true)).
Proof.
  unfold checkUnexpected.
  destruct (bool_decide (c ∈ dirtyChains t) || bool_decide (c ∈ dirtyInserts t))
    eqn:Hdirty.
  { exists (dirtyInserts t), (dirtyChains t). rewrite withDirty_id.
    assert (¬ Verdict.clean t c) by (rewrite <- clean_dirty_test; congruence).
    naive_solver. }
  apply clean_dirty_test in Hdirty.
  destruct (chainToDataplaneHashes t !! c) as [known|] eqn:Hknown.
  { rewrite bool_decide_eq_true_2 by done.
    exists (dirtyInserts t), (dirtyChains t). rewrite withDirty_id. naive_solver. }
  rewrite bool_decide_eq_false_2 by (by intros [? ?]).
  destruct (ourChainsRegexp t c) eqn:Hours; cbn [negb].
  - rewrite markDirtyChain_withDirty. do 2 eexists. split; [done|].
    split; [naive_solver|]. intros x. rewrite elem_of_union, elem_of_singleton.
    naive_solver.
  - destruct (hasNonEmpty (Some hashes)) eqn:Hnon.
    + rewrite markDirtyInsert_withDirty. do 2 eexists. split; [done|].
      split; [|naive_solver]. intros x. rewrite elem_of_union, elem_of_singleton.
      naive_solver.
    + exists (dirtyInserts t), (dirtyChains t). rewrite withDirty_id. naive_solver.
Qed.

Lemma checkUnexpected_fold (l : list (string * list string)) :
  ∀ t, NoDup l.*1 →
  ∃ dI dC,
    foldl checkUnexpected t l = Verdict.withDirty t dI dC
    ∧ (∀ x, x ∈ dI ↔ x ∈ dirtyInserts t
            ∨ (∃ hashes, (x, hashes) ∈ l ∧ Verdict.clean t x
                 ∧ chainToDataplaneHashes t !! x = None
                 ∧ ourChainsRegexp t x = false ∧ hasNonEmpty (Some hashes) = true))
    ∧ (∀ x, x ∈ dC ↔ x ∈ dirtyChains t
            ∨ (∃ hashes, (x, hashes) ∈ l ∧ Verdict.clean t x
                 ∧ chainToDataplaneHashes t !! x = None
                 ∧ ourChainsRegexp t x = true)).
Proof.
  induction l as [|[c e] l IH]; intros t Hnodup.
  { exists (dirtyInserts t), (dirtyChains t). cbn [foldl]. rewrite withDirty_id.
    split; [done|]. split; intros x; rewrite ?elem_of_nil; set_solver. }
  apply NoDup_cons in Hnodup as [Hc Hnodup]. cbn [foldl].
  destruct (checkUnexpected_step t c e) as (dI1 & dC1 & -> & HdI1 & HdC1).
  destruct (IH (Verdict.withDirty t dI1 dC1) Hnodup) as (dI & dC & -> & HdI & HdC).
  exists dI, dC. split; [done|].
  assert (∀ x e', (x, e') ∈ l → x ≠ c) as Hfresh.
  { intros x e' Hin ->. apply Hc. apply list_elem_of_fmap. by exists (c, e'). }
  assert (∀ x, x ≠ c →
            Verdict.clean (Verdict.withDirty t dI1 dC1) x ↔ Verdict.clean t x) as Hclean.
  { intros x Hx. unfold Verdict.clean. cbn. rewrite HdI1, HdC1. naive_solver. }
  split; intros x; [rewrite HdI, HdI1|rewrite HdC, HdC1]; cbn;
    setoid_rewrite elem_of_cons; split.
  - intros [[?|?]|(e' & Hin & Hcl & ?)]; [by left|right; naive_solver|].
    right. exists e'. apply Hclean in Hcl; [|by eapply Hfresh]. naive_solver.
  - intros [?|(e' & [[= -> ->]|Hin] & Hcl & ?)]; [by left; left|by left; right|].
    right. exists e'. split; [done|]. split; [|done].
    apply Hclean; [by eapply Hfresh|done].
  - intros [[?|?]|(e' & Hin & Hcl & ?)]; [by left|right; naive_solver|].
    right. exists e'. apply Hclean in Hcl; [|by eapply Hfresh]. naive_solver.
  - intros [?|(e' & [[= -> ->]|Hin] & Hcl & ?)]; [by left; left|by left; right|].
    right. exists e'. split; [done|]. split; [|done].
    apply Hclean; [by eapply Hfresh|done].
Qed.

(** The two loops of [loadDataplaneState] together: what is dirty once the
    hashes [D] have been read back. *)
Lemma reload_marks (env : Env) (D : gmap string (list string)) (f : Features)
  (t : Table) :
  ∃ dI dC,
    foldl checkUnexpected
      (foldl (checkExpected env D f) t (map_to_list (chainToDataplaneHashes t)))
      (map_to_list D) = Verdict.withDirty t dI dC
    ∧ (∀ x, x ∈ dI ↔ x ∈ dirtyInserts t
         ∨ (Verdict.clean t x ∧ ourChainsRegexp t x = false
            ∧ ((is_Some (chainToDataplaneHashes t !! x)
                ∧ Verdict.insertsOutOfSync (digest env) t f (D !! x) x)
               ∨ (chainToDataplaneHashes t !! x = None
                  ∧ hasNonEmpty (D !! x) = true))))
    ∧ (∀ x, x ∈ dC ↔ x ∈ dirtyChains t
         ∨ (Verdict.clean t x ∧ ourChainsRegexp t x = true
            ∧ ((is_Some (chainToDataplaneHashes t !! x)
                ∧ D !! x ≠ chainToDataplaneHashes t !! x)
               ∨ (chainToDataplaneHashes t !! x = None ∧ is_Some (D !! x))))).
Proof.
  destruct (checkExpected_fold env D f (map_to_list (chainToDataplaneHashes t)) t)
    as (dI1 & dC1 & -> & HdI1 & HdC1); [apply NoDup_fst_map_to_list|].
  destruct (checkUnexpected_fold (map_to_list D) (Verdict.withDirty t dI1 dC1))
    as (dI & dC & -> & HdI & HdC); [apply NoDup_fst_map_to_list|].
  exists dI, dC. split; [done|].
  assert (∀ x, chainToDataplaneHashes t !! x = None →
            Verdict.clean (Verdict.withDirty t dI1 dC1) x ↔ Verdict.clean t x) as Hclean.
  { intros x Hx. unfold Verdict.clean. cbn. rewrite HdI1, HdC1.
    setoid_rewrite elem_of_map_to_list. naive_solver. }
  split; intros x; [rewrite HdI, HdI1|rewrite HdC, HdC1]; cbn;
    setoid_rewrite elem_of_map_to_list; split.
  - intros [[?|(e & He & ?)]|(h & Hh & Hcl & Hnone & ?)]; [by left|right|right].
    + rewrite He. naive_solver.
    + apply Hclean in Hcl; [|done]. rewrite Hh. naive_solver.
  - intros [?|(Hcl & Hours & [[[e He] ?]|[Hnone Hnon]])]; [by left; left|left; right|right].
    + exists e. naive_solver.
    + destruct (D !! x) as [h|] eqn:Hh; [|done]. exists h.
      split; [done|]. split; [by apply Hclean|done].
  - intros [[?|(e & He & ? & ? & ?)]|(h & Hh & Hcl & Hnone & ?)]; [by left|right|right].
    + rewrite He. split; [done|]. split; [done|]. left. split; [done|]. done.
    + apply Hclean in Hcl; [|done]. rewrite Hh. naive_solver.
  - intros [?|(Hcl & Hours & [[[e He] Hne]|[Hnone [h Hh]]])]; [by left; left|left; right|right].
    + exists e. rewrite He in Hne. naive_solver.
    + exists h. split; [done|]. split; [by apply Hclean|done].
Qed.

(** ** The effects of a reload on the world *)

Lemma attemptToGetHashesFromDataplane_spec (env : Env) (t : Table) (w w' : World)
  (o : Outcome (option (gmap string (list string)))) :
  attemptToGetHashesFromDataplane env t w = (o, w') →
  Frame.sameButSaves w w'
  ∧ ∀ D, o = Done (Some D) →
      ∃ r killFails, saveCmd env (saveRuns w) = SaveRan r killFails false
                     ∧ readHashesFrom t r = Some D.
Proof.
  unfold attemptToGetHashesFromDataplane, bind, runSave, Frame.sameButSaves.
  destruct (saveCmd env (saveRuns w)) as [|r killFails waitFails];
    [intros [= <- <-]; cbn; split; [repeat split; lia|done]|].
  destruct (readHashesFrom t r) as [D|] eqn:Hread.
  - destruct waitFails; intros [= <- <-]; cbn; (split; [repeat split; lia|]);
      [done|]. intros D' [= <-]. eauto.
  - destruct killFails; intros [= <- <-]; cbn; (split; [repeat split; lia|done]).
Qed.

Lemma getHashesFromDataplaneLoop_spec (env : Env) (t : Table) (retries : nat) :
  ∀ (retryDelay : Z) (w w' : World) (o : Outcome (gmap string (list string))),
    getHashesFromDataplaneLoop env t retries retryDelay w = (o, w') →
    Frame.sameButSaves w w'
    ∧ ∀ D, o = Done D →
        ∃ n r killFails, (saveRuns w ≤ n)%nat
                         ∧ saveCmd env n = SaveRan r killFails false
                         ∧ readHashesFrom t r = Some D.
Proof.
  assert (∀ w w1 : World, ∀ D o1,
            (∀ D0, Done (Some D) = Done (Some D0) →
               ∃ r killFails, saveCmd env (saveRuns w) = SaveRan r killFails false
                              ∧ readHashesFrom t r = Some D0) →
            o1 = Done D →
            ∃ n r killFails, (saveRuns w ≤ n)%nat
                             ∧ saveCmd env n = SaveRan r killFails false
                             ∧ readHashesFrom t r = Some D) as Hfound.
  { intros w w1 D o1 Hdone _. destruct (Hdone D eq_refl) as (r & k & ? & ?).
    exists (saveRuns w), r, k. done. }
  induction retries as [|retries IH]; intros retryDelay w w' o;
    cbn [getHashesFromDataplaneLoop]; unfold bind at 1;
    destruct (attemptToGetHashesFromDataplane env t w) as [o1 w1] eqn:Hattempt;
    apply attemptToGetHashesFromDataplane_spec in Hattempt as [Hsame Hdone];
    destruct o1 as [[D|]|].
  - intros [= <- <-]. split; [done|]. intros D' [= <-]. by eapply Hfound.
  - intros [= <- <-]. split; [done|]. done.
  - intros [= <- <-]. split; [done|]. done.
  - intros [= <- <-]. split; [done|]. intros D' [= <-]. by eapply Hfound.
  - unfold bind at 1. unfold timeSleep at 1. intros Hloop.
    apply IH in Hloop as [Hsame' Hdone'].
    unfold Frame.sameButSaves in *. cbn [clockReads saveRuns probes detected restoreLog] in *.
    destruct Hsame as (? & ? & ? & ? & ?), Hsame' as (? & ? & ? & ? & ?).
    split; [repeat split; (congruence || lia)|].
    intros D' HD'. destruct (Hdone' D' HD') as (n & r & k & ? & ? & ?).
    exists n, r, k. split; [lia|done].
  - intros [= <- <-]. split; [done|]. done.
Qed.

(** A save run that succeeds at once gives its hashes without a retry. *)
Lemma getHashesFromDataplane_first (env : Env) (t : Table) (w : World)
  (r : Reader) (killFails : bool) (D : gmap string (list string)) :
  saveCmd env (saveRuns w) = SaveRan r killFails false →
  readHashesFrom t r = Some D →
  ∃ w', getHashesFromDataplane env t w = (Done D, w') ∧ Frame.sameButSaves w w'
        ∧ slept w' = slept w.
Proof.
  intros Hsave Hread.
  unfold getHashesFromDataplane. cbn [getHashesFromDataplaneLoop].
  unfold bind, attemptToGetHashesFromDataplane, bind, runSave.
  rewrite Hsave, Hread. cbn. eexists. split; [done|].
  unfold Frame.sameButSaves. cbn. repeat split; lia.
Qed.

(** A reload: the table it returns and what it did to the world. *)
Lemma loadDataplaneState_spec (env : Env) (t : Table) (w w' : World)
  (o : Outcome Table) :
  loadDataplaneState env t w = (o, w') →
  restoreLog w' = restoreLog w
  ∧ detected w' = probeFeatures env (probes w)
  ∧ probes w' = S (probes w)
  ∧ clockReads w' = S (clockReads w)
  ∧ (saveRuns w ≤ saveRuns w')%nat
  ∧ ∀ t', o = Done t' →
      ∃ D dI dC,
        t' = withState t (chainToInsertedRules t) dI (chainNameToChain t) dC true D
               (timeNow env (clockReads w)) (lastWriteTime t) (postWriteInterval t)
        ∧ (∃ n r killFails, (saveRuns w ≤ n)%nat
             ∧ saveCmd env n = SaveRan r killFails false
             ∧ readHashesFrom t r = Some D)
        ∧ (∀ x, x ∈ dI ↔ x ∈ dirtyInserts t
             ∨ (Verdict.clean t x ∧ ourChainsRegexp t x = false
                ∧ ((is_Some (chainToDataplaneHashes t !! x)
                    ∧ Verdict.insertsOutOfSync (digest env) t (detected w') (D !! x) x)
                   ∨ (chainToDataplaneHashes t !! x = None
                      ∧ hasNonEmpty (D !! x) = true))))
        ∧ (∀ x, x ∈ dC ↔ x ∈ dirtyChains t
             ∨ (Verdict.clean t x ∧ ourChainsRegexp t x = true
                ∧ ((is_Some (chainToDataplaneHashes t !! x)
                    ∧ D !! x ≠ chainToDataplaneHashes t !! x)
                   ∨ (chainToDataplaneHashes t !! x = None ∧ is_Some (D !! x))))).
Proof.
  unfold loadDataplaneState.
  unfold bind at 1. unfold RefreshFeatures at 1.
  unfold bind at 1. unfold now at 1.
  unfold bind at 1.
  match goal with
  | |- context [getHashesFromDataplane env ?t0 ?w0] =>
      destruct (getHashesFromDataplane env t0 w0) as [o1 w1] eqn:Hread
  end.
  apply getHashesFromDataplaneLoop_spec in Hread as [Hsame Hdone].
  unfold Frame.sameButSaves in Hsame.
  cbn [clockReads saveRuns probes detected restoreLog] in Hsame.
  destruct Hsame as (Hclock & Hprobes & Hdetected & Hlog & Hsaves).
  destruct o1 as [D|]; [|intros [= <- <-]; repeat split; (done || lia)].
  unfold bind, GetFeatures, ret. cbv zeta. intros [= <- <-].
  split; [done|]. split; [done|]. split; [done|]. split; [done|]. split; [done|].
  intros t' [= <-].
  destruct (Hdone D eq_refl) as (n & r & k & Hn & Hsave & Hr). cbn in Hn.
  destruct (reload_marks env D (detected w1)
              (setLastReadTime t (timeNow env (clockReads w))))
    as (dI & dC & Heq & HdI & HdC).
  cbn [chainToDataplaneHashes setLastReadTime withState] in Heq. rewrite Heq.
  exists D, dI, dC. split; [done|]. split; [by exists n, r, k|].
  split; [exact HdI|exact HdC].
Qed.

(** Decide a closed proposition by evaluation. *)
Ltac by_evaluation :=
  match goal with
  | |- ?P => apply (@bool_decide_unpack P _); vm_compute; exact I
  end.

(** C5.  On a reload, the hashes expected of a tracked insertion target
    are recomputed from the number of empty (foreign) hashes that were just
    read back: in insert mode our hashes come first and that many empty
    strings follow, in append mode the empty strings come first.  The chain's
    inserts become dirty exactly when the list read back differs from that,
    so a foreign rule added between two calls moves the expected positions. *)
Theorem reload_expects_by_foreign_count (env : Env) (t t' : Table) (w w' : World)
  (chainName : string) :
  loadDataplaneState env t w = (Done t', w') →
  ourChainsRegexp t chainName = false →
  is_Some (chainToDataplaneHashes t !! chainName) →
  Verdict.clean t chainName →
  let readBack := chainToDataplaneHashes t' !! chainName in
  let foreign := numEmptyStrings readBack in
  let ours :=
    calculateRuleInsertHashes (digest env) chainName
      (elems (chainToInsertedRules t' !! chainName)) (detected w') in
  let expected :=
    if decide (insertMode t' = "append")
    then replicate foreign EmptyString ++ ours
    else ours ++ replicate foreign EmptyString in
  expectedHashesForInsertChain (digest env) t' (detected w') chainName foreign
  = (expected, ours)
  ∧ (chainName ∈ dirtyInserts t'
     ↔ match readBack with
       | Some hashes => hashes ≠ expected
       | None => elems (chainToInsertedRules t' !! chainName) ≠ []
       end).
Proof.
  intros Hload Hours Htracked Hclean readBack foreign ours expected.
  split; [apply expectedHashesForInsertChain_spec|].
  apply loadDataplaneState_spec in Hload as (_ & _ & _ & _ & _ & Hdone).
  destruct (Hdone t' eq_refl) as (D & dI & dC & -> & _ & HdI & _).
  subst readBack foreign ours expected.
  cbn [dirtyInserts chainToDataplaneHashes chainToInsertedRules insertMode withState].
  rewrite HdI. unfold Verdict.insertsOutOfSync.
  rewrite expectedHashesForInsertChain_spec. cbn [fst].
  destruct Hclean as [HdC0 HdI0].
  split.
  - intros [?|(_ & _ & [[_ Hout]|[Hnone _]])]; [done|exact Hout|].
    rewrite Hnone in Htracked. by destruct Htracked.
  - intros Hout. right. split; [done|]. split; [done|]. left. done.
Qed.

Lemma reload_expects_by_foreign_count_witness :
  ∃ t' w',
    loadDataplaneState Scenario.hookedEnv (fst Scenario.hooked) (snd Scenario.hooked)
    = (Done t', w')
    ∧ chainToDataplaneHashes (fst Scenario.hooked) !! "FORWARD"
      = Some ["h0-FORWARD--jumpcali-FORWARD"]
    ∧ chainToDataplaneHashes t' !! "FORWARD"
      = Some [EmptyString; "h0-FORWARD--jumpcali-FORWARD"]
    ∧ "FORWARD" ∈ dirtyInserts t'.
Proof.
  pose (t := fst Scenario.hooked). pose (w := snd Scenario.hooked).
  assert (chainToDataplaneHashes t !! "FORWARD" = Some ["h0-FORWARD--jumpcali-FORWARD"])
    as Htracked by (by vm_compute).
  assert (Verdict.clean t "FORWARD") as Hclean
    by (split; by_evaluation).
  assert (ourChainsRegexp t "FORWARD" = false) as Hours by (by vm_compute).
  assert (let t' := Fixture.tableOf (loadDataplaneState Scenario.hookedEnv t w) in
          ( chainToDataplaneHashes t' !! "FORWARD", insertMode t',
            chainToInsertedRules t' !! "FORWARD")
          = (Some [EmptyString; "h0-FORWARD--jumpcali-FORWARD"], "insert",
             Some [Scenario.hook])) as Hafter by (by vm_compute).
  assert (detected (snd (loadDataplaneState Scenario.hookedEnv t w))
          = Fixture.noFeatures) as Hfeatures by (by vm_compute).
  destruct (loadDataplaneState Scenario.hookedEnv t w) as [[t'|] w'] eqn:Hload;
    [|by apply (f_equal Fixture.isDone) in Hload; vm_compute in Hload].
  cbn [Fixture.tableOf snd] in Hafter, Hfeatures.
  injection Hafter as Hread Hmode Hrules.
  destruct (reload_expects_by_foreign_count Scenario.hookedEnv t t' w w' "FORWARD"
              Hload Hours (ex_intro _ _ Htracked) Hclean) as [_ Hdirty].
  exists t', w'. split; [done|]. split; [done|]. split; [done|].
  apply Hdirty. rewrite Hread, Hmode, Hfeatures, Hrules. by vm_compute.
Defined.

(** ** The restore input builder *)

Lemma write_all (ls : list Builder.RestoreLine) :
  ∀ b : Builder.RestoreInputBuilder,
    foldl Builder.write b ls =
    {| Builder.buf :=
         Builder.buf b
         ++ (if Builder.txnOpenerWritten b then []
             else match ls with
                  | [] => []
                  | _ => [Builder.TableOpener (Builder.currentTableName b)]
                  end)
         ++ ls;
       Builder.currentTableName := Builder.currentTableName b;
       Builder.txnOpenerWritten :=
         Builder.txnOpenerWritten b || match ls with [] => false | _ => true end |}.
Proof.
  induction ls as [|l ls IH]; intros [p name opened]; cbn [foldl].
  - cbn. rewrite orb_false_r. destruct opened; by rewrite !app_nil_r.
  - rewrite IH. unfold Builder.write, Builder.maybeWriteTransactionOpener. cbn.
    destruct opened; cbn; rewrite ?orb_true_r; f_equal;
      rewrite <- ?app_assoc; cbn; done.
Qed.

Lemma write_app (l1 l2 : list Builder.RestoreLine) (b : Builder.RestoreInputBuilder) :
  foldl Builder.write (foldl Builder.write b l1) l2 = foldl Builder.write b (l1 ++ l2).
Proof. by rewrite foldl_app. Qed.

(** A transaction that is started, written and ended adds itself to the
    buffer, or nothing if nothing was written. *)
Lemma transaction_written (b : Builder.RestoreInputBuilder) (table : string)
  (body : list Builder.RestoreLine) :
  Builder.EndTransaction (foldl Builder.write (Builder.StartTransaction b table) body)
  = {| Builder.buf := Builder.buf b ++ Lines.transaction table body;
       Builder.currentTableName := EmptyString;
       Builder.txnOpenerWritten := false |}.
Proof.
  rewrite write_all. unfold Builder.EndTransaction, Lines.transaction. cbn.
  f_equal. destruct body as [|l body]; cbn; [by rewrite !app_nil_r|].
  by rewrite <- !app_assoc.
Qed.

Lemma writeLines_write (b : Builder.RestoreInputBuilder) (lines : list string) :
  writeLines b lines = foldl Builder.write b (Builder.RuleLine <$> lines).
Proof.
  unfold writeLines. revert b. induction lines as [|l lines IH]; intros b; [done|].
  cbn [foldl fmap list_fmap]. by rewrite IH.
Qed.

(** ** The passes of [applyUpdates] *)

Lemma forwardReferencePass_fold (env : Env) (t : Table) (f : Features)
  (l : list string) :
  ∀ (b : Builder.RestoreInputBuilder) (s : gset string),
    foldl (forwardReferencePass env t f) (b, s) l =
    (foldl Builder.write b (l ≫= Lines.forwardReferences env t f),
     s ∖ list_to_set (filter (λ c, Lines.alreadyCorrect env t f c = true) l)).
Proof.
  induction l as [|c l IH]; intros b s; cbn [foldl].
  { cbn. f_equal. set_solver. }
  assert (forwardReferencePass env t f (b, s) c =
          (foldl Builder.write b (Lines.forwardReferences env t f c),
           if Lines.alreadyCorrect env t f c then s ∖ {[c]} else s)) as ->.
  { unfold forwardReferencePass, Lines.forwardReferences, Lines.needsFlush,
      Lines.alreadyCorrect.
    destruct (nftablesMode t); cbn [andb].
    - by destruct (_ && _).
    - destruct (bool_decide (is_Some (chainNameToChain t !! c))); cbn; [|done].
      by destruct (bool_decide (is_Some (chainToDataplaneHashes t !! c))). }
  rewrite IH, bind_cons, <- write_app. f_equal.
  rewrite filter_cons.
  destruct (Lines.alreadyCorrect env t f c) eqn:Hc.
  - rewrite decide_True by done. set_solver.
  - rewrite decide_False by done. done.
Qed.

Lemma chainUpdatePass_fold (env : Env) (t : Table) (f : Features) (l : list string) :
  ∀ (b : Builder.RestoreInputBuilder) (nh : NewHashes),
    ∃ nh', foldl (chainUpdatePass env t f) (b, nh) l =
           (foldl Builder.write b (l ≫= Lines.chainUpdates env t f), nh')
      ∧ ∀ c, nh' !! c =
             match (if bool_decide (c ∈ l) then chainNameToChain t !! c else None) with
             | Some chain => Some (Some (Chains.RuleHashes (digest env) chain f))
             | None => nh !! c
             end.
Proof.
  induction l as [|c l IH]; intros b nh; cbn [foldl].
  { exists nh. split; [done|]. intros c. by rewrite bool_decide_eq_false_2 by set_solver. }
  assert (chainUpdatePass env t f (b, nh) c =
          (foldl Builder.write b (Lines.chainUpdates env t f c),
           match chainNameToChain t !! c with
           | Some chain => <[c := Some (Chains.RuleHashes (digest env) chain f)]> nh
           | None => nh
           end)) as ->.
  { unfold chainUpdatePass, Lines.chainUpdates, chainUpdateLines.
    destruct (chainNameToChain t !! c); [|done]. by rewrite writeLines_write. }
  destruct (IH (foldl Builder.write b (Lines.chainUpdates env t f c))
              (match chainNameToChain t !! c with
               | Some chain => <[c := Some (Chains.RuleHashes (digest env) chain f)]> nh
               | None => nh
               end)) as (nh' & -> & Hnh').
  exists nh'. split; [by rewrite bind_cons, <- write_app|].
  intros x. rewrite Hnh'.
  destruct (decide (x ∈ l)) as [Hx|Hx].
  - rewrite (bool_decide_eq_true_2 (x ∈ l)) by done.
    rewrite (bool_decide_eq_true_2 (x ∈ c :: l)) by set_solver.
    destruct (chainNameToChain t !! x) eqn:Hd; [done|].
    destruct (chainNameToChain t !! c) eqn:Hc; [|done].
    rewrite lookup_insert_ne; [done|intros ->; congruence].
  - rewrite (bool_decide_eq_false_2 (x ∈ l)) by done.
    destruct (decide (x = c)) as [->|Hne].
    + rewrite (bool_decide_eq_true_2 (c ∈ c :: l)) by set_solver.
      destruct (chainNameToChain t !! c); [by rewrite lookup_insert_eq|done].
    + rewrite (bool_decide_eq_false_2 (x ∈ c :: l)) by set_solver.
      destruct (chainNameToChain t !! c); [by rewrite lookup_insert_ne|done].
Qed.

Lemma insertPass_fold (env : Env) (t : Table) (f : Features) (l : list string) :
  ∀ (b : Builder.RestoreInputBuilder) (nh : NewHashes),
    ∃ nh', foldl (insertPass env t f) (b, nh) l =
           (foldl Builder.write b (l ≫= Lines.insertUpdates env t f), nh')
      ∧ ∀ c, nh' !! c =
             if bool_decide (c ∈ l) && negb (Lines.insertsInSync env t f c)
             then Some (Some (Lines.newChainHashes env t f c))
             else nh !! c.
Proof.
  induction l as [|c l IH]; intros b nh; cbn [foldl].
  { exists nh. split; [done|]. intros c. by rewrite bool_decide_eq_false_2 by set_solver. }
  assert (insertPass env t f (b, nh) c =
          (foldl Builder.write b (Lines.insertUpdates env t f c),
           if Lines.insertsInSync env t f c then nh
           else <[c := Some (Lines.newChainHashes env t f c)]> nh)) as ->.
  { unfold insertPass, Lines.insertUpdates, Lines.insertsInSync, Lines.newChainHashes.
    destruct (expectedHashesForInsertChain _ _ _ _ _) as [allHashes ruleHashes].
    cbn [fst snd]. destruct (DeepEqual _ _); [done|]. by rewrite writeLines_write. }
  destruct (IH (foldl Builder.write b (Lines.insertUpdates env t f c))
              (if Lines.insertsInSync env t f c then nh
               else <[c := Some (Lines.newChainHashes env t f c)]> nh))
    as (nh' & -> & Hnh').
  exists nh'. split; [by rewrite bind_cons, <- write_app|].
  intros x. rewrite Hnh'.
  destruct (decide (x ∈ l)) as [Hx|Hx].
  - rewrite (bool_decide_eq_true_2 (x ∈ l)) by done.
    rewrite (bool_decide_eq_true_2 (x ∈ c :: l)) by set_solver. cbn [andb].
    destruct (Lines.insertsInSync env t f x) eqn:Hsx; cbn [negb]; [|done].
    destruct (Lines.insertsInSync env t f c) eqn:Hsc; [done|].
    rewrite lookup_insert_ne; [done|intros ->; congruence].
  - rewrite (bool_decide_eq_false_2 (x ∈ l)) by done. cbn [andb].
    destruct (decide (x = c)) as [->|Hne].
    + rewrite (bool_decide_eq_true_2 (c ∈ c :: l)) by set_solver. cbn [andb].
      destruct (Lines.insertsInSync env t f c); cbn [negb]; [done|].
      by rewrite lookup_insert_eq.
    + rewrite (bool_decide_eq_false_2 (x ∈ c :: l)) by set_solver. cbn [andb].
      destruct (Lines.insertsInSync env t f c); [done|by rewrite lookup_insert_ne].
Qed.

Lemma deletionFlushPass_fold (t : Table) (l : list string) :
  ∀ b : Builder.RestoreInputBuilder,
    foldl (deletionFlushPass t) b l =
    foldl Builder.write b (l ≫= Lines.deletionFlushes t).
Proof.
  induction l as [|c l IH]; intros b; cbn [foldl]; [done|].
  rewrite IH, bind_cons, <- write_app. f_equal.
  unfold deletionFlushPass, Lines.deletionFlushes.
  by destruct (bool_decide _).
Qed.

Lemma deletionPass_fold (t : Table) (l : list string) :
  ∀ (b : Builder.RestoreInputBuilder) (nh : NewHashes),
    ∃ nh', foldl (deletionPass t) (b, nh) l =
           (foldl Builder.write b (l ≫= Lines.deletions t), nh')
      ∧ ∀ c, nh' !! c =
             if bool_decide (c ∈ l)
                && negb (bool_decide (is_Some (chainNameToChain t !! c)))
             then Some None else nh !! c.
Proof.
  induction l as [|c l IH]; intros b nh; cbn [foldl].
  { exists nh. split; [done|]. intros c. by rewrite bool_decide_eq_false_2 by set_solver. }
  assert (deletionPass t (b, nh) c =
          (foldl Builder.write b (Lines.deletions t c),
           if bool_decide (is_Some (chainNameToChain t !! c)) then nh
           else <[c := None]> nh)) as ->.
  { unfold deletionPass, Lines.deletions. by destruct (bool_decide _). }
  destruct (IH (foldl Builder.write b (Lines.deletions t c))
              (if bool_decide (is_Some (chainNameToChain t !! c)) then nh
               else <[c := None]> nh)) as (nh' & -> & Hnh').
  exists nh'. split; [by rewrite bind_cons, <- write_app|].
  intros x. rewrite Hnh'.
  destruct (decide (x ∈ l)) as [Hx|Hx].
  - rewrite (bool_decide_eq_true_2 (x ∈ l)) by done.
    rewrite (bool_decide_eq_true_2 (x ∈ c :: l)) by set_solver. cbn [andb].
    destruct (bool_decide (is_Some (chainNameToChain t !! x))) eqn:Hsx; cbn [negb]; [|done].
    destruct (bool_decide (is_Some (chainNameToChain t !! c))) eqn:Hsc; [done|].
    rewrite lookup_insert_ne; [done|intros ->; congruence].
  - rewrite (bool_decide_eq_false_2 (x ∈ l)) by done. cbn [andb].
    destruct (decide (x = c)) as [->|Hne].
    + rewrite (bool_decide_eq_true_2 (c ∈ c :: l)) by set_solver. cbn [andb].
      destruct (bool_decide (is_Some (chainNameToChain t !! c))); cbn [negb]; [done|].
      by rewrite lookup_insert_eq.
    + rewrite (bool_decide_eq_false_2 (x ∈ c :: l)) by set_solver. cbn [andb].
      destruct (bool_decide (is_Some (chainNameToChain t !! c)));
        [done|by rewrite lookup_insert_ne].
Qed.

Lemma stillDirty_elements (env : Env) (t : Table) (f : Features) :
  dirtyChains t
  ∖ list_to_set (filter (λ c, Lines.alreadyCorrect env t f c = true)
                   (elements (dirtyChains t)))
  = Lines.stillDirty env t f.
Proof.
  apply set_eq. intros x. unfold Lines.stillDirty.
  rewrite elem_of_difference, elem_of_list_to_set, list_elem_of_filter,
    elem_of_elements, elem_of_filter.
  destruct (Lines.alreadyCorrect env t f x); naive_solver.
Qed.

Lemma stillDirty_legacy (env : Env) (t : Table) (f : Features) :
  nftablesMode t = false → Lines.stillDirty env t f = dirtyChains t.
Proof.
  intros Hlegacy. apply set_eq. intros x. unfold Lines.stillDirty, Lines.alreadyCorrect.
  rewrite elem_of_filter, Hlegacy. naive_solver.
Qed.

(** The passes of [applyUpdates] write [Lines.restoreInput], leave
    [Lines.stillDirty] in the dirty set and fill in [Lines.newHashesOf]. *)
Lemma buildUpdates_spec (env : Env) (t : Table) (f : Features) :
  ∃ b nh,
    buildUpdates env t f = (b, setDirtyChains t (Lines.stillDirty env t f), nh)
    ∧ Builder.buf b = Lines.restoreInput env t f
    ∧ ∀ c, nh !! c = Lines.newHashesOf env t f c.
Proof.
  unfold buildUpdates.
  rewrite forwardReferencePass_fold, stillDirty_elements.
  set (t1 := setDirtyChains t (Lines.stillDirty env t f)).
  change (dirtyChains t1) with (Lines.stillDirty env t f).
  change (dirtyInserts t1) with (dirtyInserts t).
  change (nftablesMode t1) with (nftablesMode t).
  change (Name t1) with (Name t).
  destruct (chainUpdatePass_fold env t1 f (elements (Lines.stillDirty env t f))
              (foldl Builder.write
                 (Builder.StartTransaction (Builder.Reset Builder.empty) (Name t))
                 (elements (dirtyChains t) ≫= Lines.forwardReferences env t f)) ∅)
    as (nh2 & -> & Hnh2).
  destruct (insertPass_fold env t1 f (elements (dirtyInserts t))
              (foldl Builder.write
                 (foldl Builder.write
                    (Builder.StartTransaction (Builder.Reset Builder.empty) (Name t))
                    (elements (dirtyChains t) ≫= Lines.forwardReferences env t f))
                 (elements (Lines.stillDirty env t f) ≫= Lines.chainUpdates env t1 f))
              nh2) as (nh3 & -> & Hnh3).
  rewrite !write_app.
  change (Lines.chainUpdates env t1 f) with (Lines.chainUpdates env t f).
  change (Lines.insertUpdates env t1 f) with (Lines.insertUpdates env t f).
  set (updates := (elements (dirtyChains t) ≫= Lines.forwardReferences env t f)
                  ++ (elements (Lines.stillDirty env t f) ≫= Lines.chainUpdates env t f)
                  ++ (elements (dirtyInserts t) ≫= Lines.insertUpdates env t f)).
  assert (∀ c, nh3 !! c =
               if bool_decide (c ∈ dirtyInserts t) && negb (Lines.insertsInSync env t f c)
               then Some (Some (Lines.newChainHashes env t f c))
               else if bool_decide (c ∈ Lines.stillDirty env t f)
                    then (λ chain, Some (Chains.RuleHashes (digest env) chain f))
                         <$> (chainNameToChain t !! c)
                    else None) as Hnh3'.
  { intros c. rewrite Hnh3, Hnh2, lookup_empty.
    change (Lines.insertsInSync env t1 f c) with (Lines.insertsInSync env t f c).
    change (Lines.newChainHashes env t1 f c) with (Lines.newChainHashes env t f c).
    change (chainNameToChain t1) with (chainNameToChain t).
    rewrite !(bool_decide_ext _ _ (elem_of_elements _ c)).
    destruct (_ && _); [done|].
    destruct (bool_decide (c ∈ Lines.stillDirty env t f)); [|done].
    by destruct (chainNameToChain t !! c). }
  clear Hnh2 Hnh3.
  assert (∀ (b : unit) (nh5 : NewHashes), (∀ c, nh5 !! c =
                      if bool_decide (c ∈ elements (Lines.stillDirty env t f))
                         && negb (bool_decide (is_Some (chainNameToChain t1 !! c)))
                      then Some None else nh3 !! c) →
                   ∀ c, nh5 !! c = Lines.newHashesOf env t f c) as Hfinal.
  { intros _ nh5 Hnh5 c. rewrite Hnh5, Hnh3'. unfold Lines.newHashesOf.
    change (chainNameToChain t1) with (chainNameToChain t).
    by rewrite !(bool_decide_ext _ _ (elem_of_elements _ c)). }
  unfold Lines.restoreInput. cbv zeta. fold updates.
  destruct (nftablesMode t).
  - rewrite deletionFlushPass_fold.
    destruct (deletionPass_fold t1 (elements (Lines.stillDirty env t f))
                (foldl Builder.write
                   (Builder.StartTransaction
                      (Builder.EndTransaction
                         (foldl Builder.write
                            (Builder.StartTransaction (Builder.Reset Builder.empty)
                               (Name t)) updates)) (Name t))
                   (elements (Lines.stillDirty env t f) ≫= Lines.deletionFlushes t1))
                nh3) as (nh5 & -> & Hnh5).
    exists (Builder.EndTransaction
              (foldl Builder.write
                 (foldl Builder.write
                    (Builder.StartTransaction
                       (Builder.EndTransaction
                          (foldl Builder.write
                             (Builder.StartTransaction (Builder.Reset Builder.empty)
                                (Name t)) updates)) (Name t))
                    (elements (Lines.stillDirty env t f) ≫= Lines.deletionFlushes t1))
                 (elements (Lines.stillDirty env t f) ≫= Lines.deletions t1))), nh5.
    split; [done|]. split; [|by eapply (Hfinal tt)].
    rewrite write_app, !transaction_written. done.
  - destruct (deletionPass_fold t1 (elements (Lines.stillDirty env t f))
                (foldl Builder.write
                   (Builder.StartTransaction (Builder.Reset Builder.empty) (Name t))
                   updates) nh3) as (nh5 & -> & Hnh5).
    eexists _, nh5. split; [done|]. split; [|by eapply (Hfinal tt)].
    rewrite write_app, transaction_written. done.
Qed.

(** ** Storing the new hashes *)

Lemma storeUpdate_fold (l : list (string * option (list string))) (chainName : string) :
  NoDup l.*1 →
  ∀ hashes : gmap string (list string),
    foldl storeUpdate hashes l !! chainName =
    match (list_to_map l : NewHashes) !! chainName with
    | Some None => None
    | Some (Some h) => Some h
    | None => hashes !! chainName
    end.
Proof.
  induction l as [|[c v] l IH]; intros Hnodup hashes; cbn [foldl].
  { cbn [list_to_map foldr]. by rewrite lookup_empty. }
  apply NoDup_cons in Hnodup as [Hc Hnodup].
  rewrite IH by done. cbn [list_to_map foldr uncurry].
  destruct (decide (chainName = c)) as [->|Hne].
  - rewrite lookup_insert_eq.
    rewrite (not_elem_of_list_to_map_1 _ c) by done.
    destruct v; cbn; [by rewrite lookup_insert_eq|by rewrite lookup_delete_eq].
  - rewrite lookup_insert_ne by done.
    destruct (list_to_map l !! chainName) as [[h|]|]; [done|done|].
    destruct v; cbn; [by rewrite lookup_insert_ne|by rewrite lookup_delete_ne].
Qed.

(** After the merge a chain holds its new hashes, is gone if the new entry
    is [nil], and is left alone if there is no new entry. *)
Lemma storeUpdates_lookup (newHashes : NewHashes) (hashes : gmap string (list string))
  (chainName : string) :
  storeUpdates newHashes hashes !! chainName =
  match newHashes !! chainName with
  | Some None => None
  | Some (Some h) => Some h
  | None => hashes !! chainName
  end.
Proof.
  unfold storeUpdates.
  rewrite storeUpdate_fold by apply NoDup_fst_map_to_list.
  by rewrite list_to_map_to_list.
Qed.

(** ** [applyUpdates], case by case *)

Lemma applyUpdates_spec (env : Env) (t : Table) (w : World) :
  let features := detected w in
  let input := Lines.restoreInput env t features in
  let t1 := setDirtyChains t (Lines.stillDirty env t features) in
  ∃ newHashes : NewHashes,
    (∀ c, newHashes !! c = Lines.newHashesOf env t features c)
    ∧ snd (buildUpdates env t features) = newHashes
    ∧ Builder.buf (fst (fst (buildUpdates env t features))) = input
    ∧ applyUpdates env t w =
      match input with
      | [] => (Done (finishUpdates t1 newHashes, None), w)
      | _ =>
          if restoreCmd env (length (restoreLog w)) input
          then (Done (finishUpdates
                        (setPostWriteInterval
                           (setLastWriteTime t1 (timeNow env (clockReads w)))
                           (initialPostWriteInterval t))
                        newHashes, None),
                snd (now env (snd (runRestore env input w))))
          else (Done (setInSync t1 false, Some RestoreFailed),
                snd (runRestore env input w))
      end.
Proof.
  intros features input t1.
  destruct (buildUpdates_spec env t features) as (b & nh & Hbuild & Hbuf & Hnh).
  exists nh. split; [done|]. rewrite Hbuild. cbn [fst snd]. split; [done|].
  split; [done|].
  unfold applyUpdates, bind, GetFeatures. fold features. rewrite Hbuild.
  unfold Builder.Empty, Builder.GetBytesAndReset. rewrite Hbuf. fold input.
  destruct input as [|line input']; [done|].
  unfold runRestore at 1. cbn [negb].
  destruct (restoreCmd env (length (restoreLog w)) (line :: input')) eqn:Hok; cbn [negb].
  all: unfold now, runRestore, ret;
    cbn [fst snd clockReads saveRuns probes detected slept restoreLog];
    rewrite ?Hok; reflexivity.
Qed.

(** Reduce the projections of an updated table or world, and nothing else. *)
Ltac fields :=
  cbn [Name IPVersion chainToInsertedRules dirtyInserts chainNameToChain dirtyChains
       inSyncWithDataPlane chainToDataplaneHashes hashCommentPrefix hashCommentRegexp
       ourChainsRegexp oldInsertRegexp nftablesMode iptablesRestoreCmd iptablesSaveCmd
       insertMode lastReadTime lastWriteTime initialPostWriteInterval postWriteInterval
       refreshInterval lockTimeout lockProbeInterval
       withState setInserts setDirtyInserts setChains setDirtyChains setInSync
       setDataplaneHashes setLastReadTime setLastWriteTime setPostWriteInterval
       finishUpdates InvalidateDataplaneCache Verdict.withDirty
       clockReads saveRuns probes detected slept restoreLog fst snd] in *.

Lemma updatedOf_done (r : Outcome (Table * option error) * World) :
  Fixture.isDone r = true → r = (Done (Fixture.updatedOf r), snd r).
Proof. by destruct r as [[a|] w]. Qed.

Lemma appliedOf_done (r : Outcome (Table * Z) * World) :
  Fixture.isDone r = true → r = (Done (Fixture.appliedOf r), snd r).
Proof. by destruct r as [[a|] w]. Qed.

Lemma tableOf_done (r : Outcome Table * World) :
  Fixture.isDone r = true → r = (Done (Fixture.tableOf r), snd r).
Proof. by destruct r as [[a|] w]. Qed.

(** C10.  When the passes of [applyUpdates] leave the buffer empty, the
    restore command is not run (the world is untouched) and the call still
    succeeds: both dirty sets are cleared and the new hashes are merged into
    the cache, while the last write time and the post-write interval keep
    their values.  Those two change only when a non-empty input has been
    given to the restore command and accepted. *)
Theorem applyUpdates_empty_transaction (env : Env) (t : Table) (w : World) :
  (Builder.Empty (fst (fst (buildUpdates env t (detected w)))) = true →
   ∃ t',
     applyUpdates env t w = (Done (t', None), w)
     ∧ dirtyChains t' = ∅ ∧ dirtyInserts t' = ∅
     ∧ chainToDataplaneHashes t'
       = storeUpdates (snd (buildUpdates env t (detected w)))
           (chainToDataplaneHashes t)
     ∧ (∀ c, chainToDataplaneHashes t' !! c =
             match snd (buildUpdates env t (detected w)) !! c with
             | Some None => None
             | Some (Some hashes) => Some hashes
             | None => chainToDataplaneHashes t !! c
             end)
     ∧ lastWriteTime t' = lastWriteTime t
     ∧ postWriteInterval t' = postWriteInterval t)
  ∧ (∀ t' err w',
       applyUpdates env t w = (Done (t', err), w') →
       lastWriteTime t' ≠ lastWriteTime t ∨ postWriteInterval t' ≠ postWriteInterval t →
       ∃ input, input ≠ [] ∧ restoreLog w' = restoreLog w ++ [(input, true)]).
Proof.
  destruct (applyUpdates_spec env t w) as (nh & Hnh & Hsnd & Hbuf & Happly).
  cbv zeta in *. split.
  - unfold Builder.Empty. rewrite Hbuf, Hsnd.
    destruct (Lines.restoreInput env t (detected w)) as [|line input]; [|done].
    intros _. eexists. split; [exact Happly|].
    split; [done|]. split; [done|]. split; [done|].
    split; [|done]. intros c. fields. apply storeUpdates_lookup.
  - intros t' err w' Hrun. rewrite Happly in Hrun.
    destruct (Lines.restoreInput env t (detected w)) as [|line input] eqn:Hinput.
    { injection Hrun as <- <- <-. fields. tauto. }
    destruct (restoreCmd env (length (restoreLog w)) (line :: input)) eqn:Hok;
      injection Hrun as <- <- <-.
    + intros _. exists (line :: input). split; [done|].
      unfold now, runRestore. fields. by rewrite Hok.
    + fields. tauto.
Qed.

Lemma applyUpdates_empty_transaction_witness :
  ∃ t',
    applyUpdates Scenario.hookedEnv (fst Scenario2.rehooked) (snd Scenario2.rehooked)
    = (Done (t', None), snd Scenario2.rehooked)
    ∧ "FORWARD" ∈ dirtyInserts (fst Scenario2.rehooked)
    ∧ dirtyInserts t' = ∅
    ∧ lastWriteTime t' = lastWriteTime (fst Scenario2.rehooked).
Proof.
  assert (Builder.Empty
            (fst (fst (buildUpdates Scenario.hookedEnv (fst Scenario2.rehooked)
                         (detected (snd Scenario2.rehooked))))) = true)
    as Hempty by (vm_compute; reflexivity).
  destruct (proj1 (applyUpdates_empty_transaction Scenario.hookedEnv
                     (fst Scenario2.rehooked) (snd Scenario2.rehooked)) Hempty)
    as (t' & Hrun & _ & Hinserts & _ & _ & Hwrite & _).
  exists t'. split; [exact Hrun|]. split; [by_evaluation|].
  split; [exact Hinserts|exact Hwrite].
Defined.

(** C2, as stated, fails in nftables mode: with [cali-a] already correct in
    the dataplane and [cali-b] to be written, the first pass removes
    [cali-a] from the dirty chains, and the failure of the restore command
    that follows does not put it back. *)
Lemma applyUpdates_failure_loses_dirty_chain :
  ¬ (∀ (env : Env) (t t' : Table) (w w' : World) (e : error),
       applyUpdates env t w = (Done (t', Some e), w') →
       dirtyChains t' = dirtyChains t ∧ dirtyInserts t' = dirtyInserts t
       ∧ inSyncWithDataPlane t' = false).
Proof.
  intros Hclaim.
  pose (t := fst Scenario2.twoChains). pose (w := snd Scenario2.twoChains).
  pose (r := Scenario2.failed).
  assert (Fixture.isDone r = true) as Hdone by (vm_compute; reflexivity).
  assert (snd (Fixture.updatedOf r) = Some RestoreFailed) as Herr
    by (vm_compute; reflexivity).
  assert ("cali-a" ∈ dirtyChains t) as Hbefore by by_evaluation.
  assert ("cali-a" ∉ dirtyChains (fst (Fixture.updatedOf r))) as Hafter
    by by_evaluation.
  apply updatedOf_done in Hdone.
  destruct (Fixture.updatedOf r) as [t' err]. cbn [fst snd] in *. subst err.
  destruct (Hclaim Scenario2.failingEnv t t' w (snd r) RestoreFailed Hdone)
    as (Hsame & _ & _).
  rewrite Hsame in Hafter. by apply Hafter.
Qed.

(** C2, amended.  When the restore command fails, [applyUpdates] returns
    the error with the cache marked out of sync, the dirty inserts and the
    cached hashes as they were, and the dirty chains as the first pass left
    them: unchanged in legacy mode, and in nftables mode without the chains
    that the pass found already correct.  The dirty sets are cleared only
    when there was nothing to write or the restore command accepted the
    input. *)
Theorem applyUpdates_dirty_sets (env : Env) (t t' : Table) (w w' : World)
  (err : option error) :
  applyUpdates env t w = (Done (t', err), w') →
  match err with
  | Some _ =>
      (∃ input, restoreLog w' = restoreLog w ++ [(input, false)])
      ∧ inSyncWithDataPlane t' = false
      ∧ dirtyInserts t' = dirtyInserts t
      ∧ (∀ c, c ∈ dirtyChains t' ↔
              c ∈ dirtyChains t ∧ Lines.alreadyCorrect env t (detected w) c = false)
      ∧ (nftablesMode t = false → dirtyChains t' = dirtyChains t)
      ∧ chainToDataplaneHashes t' = chainToDataplaneHashes t
      ∧ lastWriteTime t' = lastWriteTime t
      ∧ postWriteInterval t' = postWriteInterval t
  | None =>
      dirtyChains t' = ∅ ∧ dirtyInserts t' = ∅
      ∧ (restoreLog w' = restoreLog w
         ∨ ∃ input, restoreLog w' = restoreLog w ++ [(input, true)])
  end.
Proof.
  destruct (applyUpdates_spec env t w) as (nh & _ & _ & _ & Happly).
  cbv zeta in Happly. rewrite Happly. clear Happly.
  destruct (Lines.restoreInput env t (detected w)) as [|line input].
  { intros [= <- <- <-]. fields. auto. }
  destruct (restoreCmd env (length (restoreLog w)) (line :: input)) eqn:Hok;
    intros [= <- <- <-]; unfold now, runRestore; fields; rewrite Hok.
  - split; [done|]. split; [done|]. right. by eexists.
  - split; [by eexists|]. split; [done|]. split; [done|].
    split; [|split; [by apply stillDirty_legacy|done]].
    intros c. unfold Lines.stillDirty. rewrite elem_of_filter. tauto.
Qed.

Lemma applyUpdates_dirty_sets_witness :
  snd (Fixture.updatedOf Scenario2.failed) = Some RestoreFailed
  ∧ inSyncWithDataPlane (fst (Fixture.updatedOf Scenario2.failed)) = false
  ∧ dirtyInserts (fst (Fixture.updatedOf Scenario2.failed))
    = dirtyInserts (fst Scenario2.twoChains)
  ∧ "cali-b" ∈ dirtyChains (fst (Fixture.updatedOf Scenario2.failed)).
Proof.
  pose (t := fst Scenario2.twoChains).
  assert (Fixture.isDone Scenario2.failed = true) as Hdone by (vm_compute; reflexivity).
  assert (snd (Fixture.updatedOf Scenario2.failed) = Some RestoreFailed) as Herr
    by (vm_compute; reflexivity).
  assert ("cali-b" ∈ dirtyChains t
          ∧ Lines.alreadyCorrect Scenario2.failingEnv t
              (detected (snd Scenario2.twoChains)) "cali-b" = false) as Hb
    by (split; [by_evaluation|vm_compute; reflexivity]).
  split; [exact Herr|].
  apply updatedOf_done in Hdone.
  destruct (Fixture.updatedOf Scenario2.failed) as [t' err].
  cbn [fst snd] in *. subst err.
  destruct (applyUpdates_dirty_sets Scenario2.failingEnv t t'
              (snd Scenario2.twoChains) (snd Scenario2.failed)
              (Some RestoreFailed) Hdone)
    as (_ & Hsync & Hinserts & Hchains & _).
  split; [exact Hsync|]. split; [exact Hinserts|]. by apply Hchains.
Defined.

(** ** The retry loop of [Apply] *)

(** An invariant [I] of the table and the world that reloads and failed
    updates keep holds when the update that ends the loop starts; a
    property [J] of the world that every step keeps holds when the loop
    ends, however it ends. *)
Lemma applyRetryLoop_inv (env : Env) (I : Table → World → Prop) (J : World → Prop) :
  (∀ t w, I t w → J w) →
  (∀ w, J w → J (snd (runSave env w))) →
  (∀ t w o w', I t w → loadDataplaneState env t w = (o, w') →
     J w' ∧ ∀ t', o = Done t' → I t' w') →
  (∀ t w t' e w', I t w → applyUpdates env t w = (Done (t', Some e), w') →
     J w' ∧ ∀ d, I t' (snd (timeSleep d w'))) →
  (∀ t w t' w', I t w → applyUpdates env t w = (Done (t', None), w') → J w') →
  ∀ retries backoffTime t w o w',
    I t w → applyRetryLoop env retries backoffTime t w = (o, w') →
    J w' ∧ ∀ t', o = Done t' →
             ∃ t1 w1, I t1 w1 ∧ inSyncWithDataPlane t1 = true
                      ∧ applyUpdates env t1 w1 = (Done (t', None), w').
Proof.
  intros HIJ Hsave Hload Hfail Hok.
  assert (∀ t w (o : Outcome (Table * option error)) w',
            applyUpdates env t w = (o, w') → ∃ r, o = Done r) as Hnopanic.
  { intros t w o w' Hrun.
    destruct (applyUpdates_spec env t w) as (nh & _ & _ & _ & Happly).
    cbv zeta in Happly. rewrite Happly in Hrun.
    destruct (Lines.restoreInput env t (detected w));
      [|destruct (restoreCmd env _ _)]; injection Hrun as <- <-; eauto. }
  induction retries as [|retries IH]; intros backoffTime t w o w' HI;
    cbn [applyRetryLoop]; unfold bind at 1.
  - destruct (if negb (inSyncWithDataPlane t) then loadDataplaneState env t else ret t)
      as [o1 w1] eqn:Hreload.
    assert (J w1 ∧ ∀ t1, o1 = Done t1 → I t1 w1 ∧ inSyncWithDataPlane t1 = true)
      as [HJ1 HI1].
    { destruct (inSyncWithDataPlane t) eqn:Hsync; cbn [negb] in Hreload.
      - injection Hreload as <- <-. split; [by eapply HIJ|]. by intros t1 [= <-].
      - destruct (Hload _ _ _ _ HI Hreload) as [HJ1 HI1]. split; [done|].
        intros t1 ->. split; [by apply HI1|].
        apply loadDataplaneState_spec in Hreload as (_ & _ & _ & _ & _ & Hdone).
        by destruct (Hdone t1 eq_refl) as (D & dI & dC & -> & _). }
    destruct o1 as [t1|]; [|intros [= <- <-]; split; [done|done]].
    destruct (HI1 t1 eq_refl) as [HI1' Hsync1]. clear HI1. rename HI1' into HI1.
    unfold bind at 1. destruct (applyUpdates env t1 w1) as [o2 w2] eqn:Hrun.
    destruct (Hnopanic _ _ _ _ Hrun) as [[t2 [e|]] ->].
    + destruct (Hfail _ _ _ _ _ HI1 Hrun) as [HJ2 _].
      unfold bind, panic. intros [= <- <-]. split; [by apply Hsave|done].
    + intros [= <- <-]. split; [by eapply Hok|].
      intros t' [= <-]. by exists t1, w1.
  - destruct (if negb (inSyncWithDataPlane t) then loadDataplaneState env t else ret t)
      as [o1 w1] eqn:Hreload.
    assert (J w1 ∧ ∀ t1, o1 = Done t1 → I t1 w1 ∧ inSyncWithDataPlane t1 = true)
      as [HJ1 HI1].
    { destruct (inSyncWithDataPlane t) eqn:Hsync; cbn [negb] in Hreload.
      - injection Hreload as <- <-. split; [by eapply HIJ|]. by intros t1 [= <-].
      - destruct (Hload _ _ _ _ HI Hreload) as [HJ1 HI1]. split; [done|].
        intros t1 ->. split; [by apply HI1|].
        apply loadDataplaneState_spec in Hreload as (_ & _ & _ & _ & _ & Hdone).
        by destruct (Hdone t1 eq_refl) as (D & dI & dC & -> & _). }
    destruct o1 as [t1|]; [|intros [= <- <-]; split; [done|done]].
    destruct (HI1 t1 eq_refl) as [HI1' Hsync1]. clear HI1. rename HI1' into HI1.
    unfold bind at 1. destruct (applyUpdates env t1 w1) as [o2 w2] eqn:Hrun.
    destruct (Hnopanic _ _ _ _ Hrun) as [[t2 [e|]] ->].
    + destruct (Hfail _ _ _ _ _ HI1 Hrun) as [_ HI2].
      unfold bind at 1. unfold timeSleep at 1. intros Hrest.
      eapply IH; [|exact Hrest]. apply (HI2 backoffTime).
    + intros [= <- <-]. split; [by eapply Hok|].
      intros t' [= <-]. by exists t1, w1.
Qed.

Lemma Apply_unfold (env : Env) (t : Table) (w : World) :
  Apply env t w =
  let nowTime := timeNow env (clockReads w) in
  match applyRetryLoop env 10 (1 * Millisecond) (checkTimers t nowTime)
          (snd (now env w)) with
  | (Done t', w') => (Done (t', reschedule t' nowTime), w')
  | (Panicked, w') => (Panicked, w')
  end.
Proof. reflexivity. Qed.

(** ** The delay that [Apply] returns *)

(** The delay in terms of what is left of the two timers. *)
Lemma reschedule_cases (t : Table) (nowTime : Z) :
  reschedule t nowTime =
  match Schedule.refreshRemaining t nowTime, Schedule.postWriteRemaining t nowTime with
  | Some r, Some p => if p <=? 0 then 1 * Millisecond else Z.min r p
  | Some r, None => r
  | None, Some p => Schedule.clamp p
  | None, None => 0
  end.
Proof.
  unfold reschedule, Schedule.refreshRemaining, Schedule.postWriteRemaining,
    Schedule.clamp.
  destruct (Z.ltb_spec 0 (refreshInterval t)) as [Hr|Hr];
    destruct (Z.ltb_spec (postWriteInterval t) Hour) as [Hp|Hp]; [| done | | done].
  - rewrite (proj2 (Z.leb_gt (refreshInterval t) 0)) by lia. cbn [orb].
    set (r := wrap64 _). set (p := timeSub _ _).
    destruct (p <=? 0); [done|].
    destruct (Z.ltb_spec p r); [by rewrite Z.min_r by lia|by rewrite Z.min_l by lia].
  - rewrite (proj2 (Z.leb_le (refreshInterval t) 0)) by lia. cbn [orb]. done.
Qed.

(** C8.  [Apply] is called exactly one refresh interval (10s) after the
    last read of the dataplane, with no post-write recheck pending.  Nothing
    is left of the refresh interval, so the minimum of the two timers is
    overdue and the claim asks for one millisecond; [Apply] returns 0, the
    value that means no rescheduling at all. *)
Theorem Apply_at_refresh_deadline :
  ∃ (t' : Table) (w' : World),
    Apply Scenario3.refreshEnv (fst Scenario3.appliedOnce) (snd Scenario3.appliedOnce)
    = (Done (t', 0), w')
    ∧ timeNow Scenario3.refreshEnv (clockReads (snd Scenario3.appliedOnce)) = 12 * Second
    ∧ lastReadTime (fst Scenario3.appliedOnce) = 2 * Second
    ∧ Schedule.refreshRemaining t' (12 * Second) = Some 0
    ∧ Schedule.postWriteRemaining t' (12 * Second) = None
    ∧ Schedule.rescheduleAfter t' (12 * Second) = 1 * Millisecond.
Proof.
  pose (r := Apply Scenario3.refreshEnv (fst Scenario3.appliedOnce)
               (snd Scenario3.appliedOnce)).
  assert (Fixture.isDone r = true) as Hdone by (vm_compute; reflexivity).
  assert (snd (Fixture.appliedOf r) = 0) as Hzero by (vm_compute; reflexivity).
  assert (Schedule.refreshRemaining (fst (Fixture.appliedOf r)) (12 * Second) = Some 0)
    as Hrefresh by (vm_compute; reflexivity).
  assert (Schedule.postWriteRemaining (fst (Fixture.appliedOf r)) (12 * Second) = None)
    as Hwrite by (vm_compute; reflexivity).
  assert (Schedule.rescheduleAfter (fst (Fixture.appliedOf r)) (12 * Second)
          = 1 * Millisecond) as Hclaim by (vm_compute; reflexivity).
  apply appliedOf_done in Hdone.
  destruct (Fixture.appliedOf r) as [t' d]. cbn [fst snd] in *. subst d.
  exists t', (snd r).
  split; [exact Hdone|].
  split; [vm_compute; reflexivity|].
  split; [vm_compute; reflexivity|].
  split; [exact Hrefresh|]. split; [exact Hwrite|exact Hclaim].
Qed.

(** For every [Apply] that returns, the delay is the minimum of what is
    left of the refresh interval (when one is configured) and of the
    post-write interval (when it is below one hour), with one millisecond in
    place of an overdue minimum, whenever something is left of the refresh
    interval or the post-write recheck is overdue; with nothing left of the
    refresh interval and no overdue post-write recheck, what is left of the
    refresh interval is returned as it is, zero or negative. *)
Theorem Apply_reschedule (env : Env) (t t' : Table) (w w' : World) (d : Z) :
  Apply env t w = (Done (t', d), w') →
  let nowTime := timeNow env (clockReads w) in
  let refresh := Schedule.refreshRemaining t' nowTime in
  let postWrite := Schedule.postWriteRemaining t' nowTime in
  ((∀ r, refresh = Some r → 0 < r) ∨ (∃ p, postWrite = Some p ∧ p ≤ 0) →
   d = Schedule.rescheduleAfter t' nowTime)
  ∧ (∀ r, refresh = Some r → r ≤ 0 → (∀ p, postWrite = Some p → 0 < p) → d = r).
Proof.
  rewrite Apply_unfold. cbv zeta.
  destruct (applyRetryLoop env 10 (1 * Millisecond) _ _) as [[t1|] w1]; [|done].
  intros [= <- <- <-]. rewrite reschedule_cases.
  unfold Schedule.rescheduleAfter, Schedule.earliest, Schedule.clamp.
  destruct (Schedule.refreshRemaining t1 _) as [r|];
    destruct (Schedule.postWriteRemaining t1 _) as [p|].
  - split.
    + intros [Hr|(p' & [= <-] & Hp)].
      * specialize (Hr r eq_refl).
        destruct (Z.leb_spec p 0).
        -- by rewrite (proj2 (Z.leb_le (Z.min r p) 0)) by lia.
        -- by rewrite (proj2 (Z.leb_gt (Z.min r p) 0)) by lia.
      * rewrite (proj2 (Z.leb_le p 0)) by lia.
        by rewrite (proj2 (Z.leb_le (Z.min r p) 0)) by lia.
    + intros r' [= <-] Hr Hp. specialize (Hp p eq_refl).
      rewrite (proj2 (Z.leb_gt p 0)) by lia. lia.
  - split.
    + intros [Hr|(p' & [=] & _)]. specialize (Hr r eq_refl).
      by rewrite (proj2 (Z.leb_gt r 0)) by lia.
    + by intros r' [= <-] _ _.
  - split; [done|]. by intros r' [=].
  - split; [done|]. by intros r' [=].
Qed.

(** The clock is set back during the call: both timers are overdue at the
    end and [Apply] asks to be called again after one millisecond. *)
Lemma Apply_reschedule_witness :
  snd (Fixture.appliedOf Scenario4.steppedApply)
  = Schedule.rescheduleAfter (fst (Fixture.appliedOf Scenario4.steppedApply)) (100 * Second)
  ∧ Schedule.refreshRemaining (fst (Fixture.appliedOf Scenario4.steppedApply))
      (100 * Second) = Some (- (90 * Second))
  ∧ Schedule.postWriteRemaining (fst (Fixture.appliedOf Scenario4.steppedApply))
      (100 * Second) = Some (50 * Millisecond - 100 * Second)
  ∧ snd (Fixture.appliedOf Scenario4.steppedApply) = 1 * Millisecond.
Proof.
  assert (Fixture.isDone Scenario4.steppedApply = true) as Hdone
    by (vm_compute; reflexivity).
  assert (Schedule.postWriteRemaining (fst (Fixture.appliedOf Scenario4.steppedApply))
            (100 * Second) = Some (50 * Millisecond - 100 * Second)) as Hleft
    by (vm_compute; reflexivity).
  assert (timeNow Scenario4.steppedEnv (clockReads (snd Scenario4.stepping))
          = 100 * Second) as Hnow by (vm_compute; reflexivity).
  split; [|split; [vm_compute; reflexivity|split; [exact Hleft|vm_compute; reflexivity]]].
  apply appliedOf_done in Hdone.
  destruct (Fixture.appliedOf Scenario4.steppedApply) as [t' d]. cbn [fst snd] in *.
  pose proof (Apply_reschedule Scenario4.steppedEnv (fst Scenario4.stepping) t'
                (snd Scenario4.stepping) (snd Scenario4.steppedApply) d Hdone) as Hd.
  cbv zeta in Hd. rewrite Hnow in Hd. apply (proj1 Hd).
  right. eexists. split; [exact Hleft|]. vm_compute. discriminate.
Defined.

(** ** The post-write interval *)

Lemma wrap64_mod (z : Z) : wrap64 z mod 2 ^ 64 = z mod 2 ^ 64.
Proof.
  unfold wrap64.
  rewrite <- (Zminus_mod_idemp_l ((z + 2 ^ 63) mod 2 ^ 64)), Z.mod_mod by lia.
  rewrite Zminus_mod_idemp_l. f_equal. lia.
Qed.

Lemma wrap64_multiple (z : Z) : z mod 2 ^ 64 = 0 → wrap64 z = 0.
Proof.
  intros Hz. unfold wrap64.
  rewrite <- Zplus_mod_idemp_l, Hz. reflexivity.
Qed.

Lemma doubled_S (interval : Z) (k : nat) :
  Schedule.doubled interval (S k) = wrap64 (Schedule.doubled interval k * 2).
Proof. reflexivity. Qed.

Lemma doubled_mod (interval : Z) (k : nat) :
  Schedule.doubled interval k mod 2 ^ 64 = (interval * 2 ^ Z.of_nat k) mod 2 ^ 64.
Proof.
  induction k as [|k IH].
  - cbn [Schedule.doubled Nat.iter nat_rect]. f_equal. cbn. lia.
  - rewrite doubled_S, wrap64_mod, <- Zmult_mod_idemp_l, IH, Zmult_mod_idemp_l.
    f_equal. rewrite Nat2Z.inj_succ, Z.pow_succ_r by lia. lia.
Qed.

(** Sixty-four doublings of a 64-bit interval leave zero. *)
Lemma doubled_64 (interval : Z) : Schedule.doubled interval 64 = 0.
Proof.
  rewrite doubled_S. apply wrap64_multiple.
  rewrite <- Zmult_mod_idemp_l, doubled_mod, Zmult_mod_idemp_l.
  replace (interval * 2 ^ Z.of_nat 63 * 2) with (interval * 2 ^ 64)
    by (change (Z.of_nat 63) with 63; lia).
  apply Z_mod_mult.
Qed.

Lemma elapsed_test (t : Table) (nowTime : Z) :
  negb (postWriteInterval t =? 0) && (postWriteInterval t <? Hour)
  && negb (timeBefore nowTime (timeAdd (lastWriteTime t) (postWriteInterval t))) = true
  ↔ Schedule.elapsed (lastWriteTime t) nowTime (postWriteInterval t).
Proof.
  unfold Schedule.elapsed, timeBefore, timeAdd.
  rewrite !andb_true_iff, !negb_true_iff, Z.eqb_neq, Z.ltb_lt, Z.ltb_ge. tauto.
Qed.

(** The loop doubles the interval as long as it has elapsed, and touches
    nothing but the interval and the in-sync flag. *)
Lemma postWriteBackoff_spec (fuel : nat) (nowTime : Z) :
  ∀ (t : Table) (invalidated : bool),
    ∃ k : nat,
      (k ≤ fuel)%nat
      ∧ (∀ j, (j < k)%nat →
           Schedule.elapsed (lastWriteTime t) nowTime
             (Schedule.doubled (postWriteInterval t) j))
      ∧ ((k < fuel)%nat →
           ¬ Schedule.elapsed (lastWriteTime t) nowTime
               (Schedule.doubled (postWriteInterval t) k))
      ∧ fst (postWriteBackoff fuel nowTime t invalidated)
        = setInSync (setPostWriteInterval t (Schedule.doubled (postWriteInterval t) k))
            (if decide (k = 0%nat) then inSyncWithDataPlane t
             else if invalidated then inSyncWithDataPlane t else false).
Proof.
  induction fuel as [|fuel IH]; intros t invalidated.
  { exists 0%nat. split; [lia|]. split; [lia|]. split; [lia|]. by destruct t. }
  cbn [postWriteBackoff].
  pose proof (elapsed_test t nowTime) as Htest.
  destruct (negb (postWriteInterval t =? 0) && (postWriteInterval t <? Hour)
            && negb (timeBefore nowTime (timeAdd (lastWriteTime t) (postWriteInterval t)))).
  - assert (Schedule.elapsed (lastWriteTime t) nowTime (postWriteInterval t)) as Hnow
      by by apply Htest.
    set (t2 := setPostWriteInterval t (wrap64 (postWriteInterval t * 2))).
    assert (∀ j, Schedule.doubled (postWriteInterval t2) j
                 = Schedule.doubled (postWriteInterval t) (S j)) as Hshift.
    { intros j. unfold Schedule.doubled. by rewrite Nat.iter_succ_r. }
    destruct invalidated; cbn [negb].
    + destruct (IH t2 true) as (k & Hk & Hbefore & Hafter & ->).
      exists (S k). split; [lia|]. split; [|split].
      * intros [|j] Hj; [done|]. rewrite <- Hshift. apply Hbefore. lia.
      * intros Hlt. rewrite <- Hshift. apply Hafter. lia.
      * rewrite Hshift. rewrite (decide_False (P := S k = 0%nat)) by lia.
        subst t2. destruct (decide (k = 0%nat)); reflexivity.
    + destruct (IH (InvalidateDataplaneCache t2 "post update") true)
        as (k & Hk & Hbefore & Hafter & ->).
      assert (postWriteInterval (InvalidateDataplaneCache t2 "post update")
              = postWriteInterval t2) as Hpw
        by (unfold InvalidateDataplaneCache; by destruct (negb _)).
      assert (lastWriteTime (InvalidateDataplaneCache t2 "post update")
              = lastWriteTime t) as Hlw
        by (unfold InvalidateDataplaneCache; by destruct (negb _)).
      rewrite Hpw, Hlw in *.
      exists (S k). split; [lia|]. split; [|split].
      * intros [|j] Hj; [done|]. rewrite <- Hshift. apply Hbefore. lia.
      * intros Hlt. rewrite <- Hshift. apply Hafter. lia.
      * rewrite Hshift. unfold InvalidateDataplaneCache.
        rewrite (decide_False (P := S k = 0%nat)) by lia.
        destruct (inSyncWithDataPlane t) eqn:Hsync;
          cbn [inSyncWithDataPlane t2 setPostWriteInterval withState negb];
          rewrite ?Hsync; cbn [negb]; subst t2; fields;
          rewrite ?Hsync; destruct (decide (k = 0%nat)); reflexivity.
  - exists 0%nat. split; [lia|]. split; [lia|]. split.
    + intros _ Helapsed. apply Htest in Helapsed. done.
    + by destruct t.
Qed.

(** With the fuel of [Apply] the loop always stops because the interval
    has not elapsed. *)
Lemma checkTimers_spec (t : Table) (nowTime : Z) :
  ∃ k : nat,
    (∀ j, (j < k)%nat →
       Schedule.elapsed (lastWriteTime t) nowTime
         (Schedule.doubled (postWriteInterval t) j))
    ∧ ¬ Schedule.elapsed (lastWriteTime t) nowTime
          (Schedule.doubled (postWriteInterval t) k)
    ∧ ∃ inSync,
        checkTimers t nowTime
        = setInSync (setPostWriteInterval t (Schedule.doubled (postWriteInterval t) k))
            inSync
        ∧ ((0 < k)%nat → inSync = false).
Proof.
  unfold checkTimers.
  set (refresh := (0 <? refreshInterval t)
                  && (refreshInterval t <? timeSub nowTime (lastReadTime t))).
  destruct refresh.
  - destruct (postWriteBackoff_spec 64 nowTime
                (InvalidateDataplaneCache t "refresh timer") true)
      as (k & Hk & Hbefore & Hafter & Heq).
    assert (postWriteInterval (InvalidateDataplaneCache t "refresh timer")
            = postWriteInterval t) as Hpw
      by (unfold InvalidateDataplaneCache; by destruct (negb _)).
    assert (lastWriteTime (InvalidateDataplaneCache t "refresh timer")
            = lastWriteTime t) as Hlw
      by (unfold InvalidateDataplaneCache; by destruct (negb _)).
    assert (inSyncWithDataPlane (InvalidateDataplaneCache t "refresh timer") = false)
      as Hsync
      by (unfold InvalidateDataplaneCache;
          by destruct (inSyncWithDataPlane t) eqn:Hs; cbn [negb]; fields).
    rewrite Hpw, Hlw, Hsync in *.
    exists k. split; [done|]. split.
    + destruct (decide (k = 64%nat)) as [->|]; [|apply Hafter; lia].
      rewrite doubled_64. by intros [? _].
    + exists false. split; [|done]. rewrite Heq.
      unfold InvalidateDataplaneCache.
      destruct (inSyncWithDataPlane t) eqn:Hs; cbn [negb]; fields;
        by destruct (decide (k = 0%nat)).
  - destruct (postWriteBackoff_spec 64 nowTime t false)
      as (k & Hk & Hbefore & Hafter & Heq).
    exists k. split; [done|]. split.
    + destruct (decide (k = 64%nat)) as [->|]; [|apply Hafter; lia].
      rewrite doubled_64. by intros [? _].
    + eexists. split; [exact Heq|]. intros Hpos. by rewrite decide_False by lia.
Qed.
